(** * iotransit-cp: the control-plane client of [lib/iotransit-cp.js]

    A shallow embedding of the class [IoTransit] (constructor, [connect],
    [disconnect], [sendCP] and the listeners [connect] installs) together
    with the properties its specification states about it.

    The objects the class touches are modelled as follows.
    - JavaScript data (the constructor argument, parsed frames, option values,
      fields patched at run time) is the type [json].  Numbers are the
      integers; the only arithmetic is on timer delays.
    - The instance ([this]) is a finite map of own properties plus its
      prototype link, so that [this[o] = v] with an arbitrary name [o] can be
      followed, including the names that shadow a method or replace the
      listener table of the emitter.
    - [EventEmitter], [WebSocketClient], its connections and [setTimeout] are
      libraries.  What the class relies on is followed: [emit] throws on an
      [error] event nobody listens to and on a listener table that was
      overwritten; [WebSocketClient.connect] throws on a request it refuses;
      [drop] reports [close] before it returns; [send] throws on [undefined].
      A call of [emit] that goes through is recorded in a log, calls into the
      transport in a second log, and [setTimeout] queues a timer.
    - The listeners of the host are taken to return normally and not to call
      back into the client while they run.
    - A listener or a method either returns or throws; both carry the state in
      which they end. *)

From Stdlib Require Import ZArith.
From stdpp Require Import gmap strings list fin_maps pretty.

Open Scope string_scope.

(** ** JavaScript data *)

(** A number is the integer it denotes.  [JSON.parse] and the host hand
    over numbers as the platform holds them, so two different integers here
    are two different numbers to [===]. *)
#[warnings="-register-all"]
Inductive json :=
| VUndef
| VNull
| VBool (b : bool)
| VNum (n : Z)
| VStr (s : string)
| VArr (elems : list json)
| VObj (fields : list (string * json)).

(** Objects list their own properties in insertion order and are read by
    first match; [JSON.parse] and object literals give distinct keys. *)
Fixpoint obj_get (fs : list (string * json)) (k : string) : option json :=
  match fs with
  | [] => None
  | (k', v) :: fs' => if String.eqb k' k then Some v else obj_get fs' k
  end.

(** [o[k] = v] on a plain object: overwrite in place, or append. *)
Fixpoint obj_set (k : string) (v : json) (fs : list (string * json))
  : list (string * json) :=
  match fs with
  | [] => [(k, v)]
  | (k', v') :: fs' =>
      if String.eqb k' k then (k, v) :: fs' else (k', v') :: obj_set k v fs'
  end.

Definition obj_has (fs : list (string * json)) (k : string) : bool :=
  match obj_get fs k with Some _ => true | None => false end.

(** ToBoolean. *)
Definition truthy (v : json) : bool :=
  match v with
  | VUndef | VNull => false
  | VBool b => b
  | VNum n => negb (Z.eqb n 0)
  | VStr s => negb (String.eqb s EmptyString)
  | VArr _ | VObj _ => true
  end.

(** [a === b] where one side is a literal or a value fresh from
    [JSON.parse]: arrays and objects are compared by identity, so a fresh one
    equals nothing. *)
Definition strict_eq (a b : json) : bool :=
  match a, b with
  | VUndef, VUndef => true
  | VNull, VNull => true
  | VBool x, VBool y => Bool.eqb x y
  | VNum x, VNum y => Z.eqb x y
  | VStr x, VStr y => String.eqb x y
  | _, _ => false
  end.

(** [a || b]. *)
Definition js_or (a b : json) : json := if truthy a then a else b.

(** ** Exceptions and results *)

(** [UnhandledError] is what [emit] throws for an [error] event without a
    listener ([ERR_UNHANDLED_ERROR]); [Error] carries the message of a
    [new Error(...)]. *)
Inductive exn :=
| TypeError
| RangeError
| SyntaxError
| UnhandledError
| Error (message : string).

Inductive result (A : Type) :=
| Ok (a : A)
| Err (e : exn).
Arguments Ok {A} a.
Arguments Err {A} e.

(** The own keys of an array: its indices and [length]. *)
Definition arr_index (n : nat) (k : string) : option nat :=
  List.find (fun i => String.eqb (pretty i) k) (seq 0 n).

Fixpoint chars (s : string) : list json :=
  match s with
  | EmptyString => []
  | String c rest => VStr (String c EmptyString) :: chars rest
  end.

Definition seq_get (l : list json) (k : string) : json :=
  if String.eqb k "length" then VNum (Z.of_nat (length l))
  else match arr_index (length l) k with
       | Some i => nth i l VUndef
       | None => VUndef
       end.

(** [v.k] for data.  Exact for own properties and for the names the source
    reads ([t], [p], [cmd], [args], [dto], the option names, [connection],
    [connected]), none of which is a member of a built-in prototype. *)
Definition get (v : json) (k : string) : result json :=
  match v with
  | VUndef | VNull => Err TypeError
  | VBool _ | VNum _ => Ok VUndef
  | VStr s => Ok (seq_get (chars s) k)
  | VArr l => Ok (seq_get l k)
  | VObj fs => Ok (match obj_get fs k with Some x => x | None => VUndef end)
  end.

(** [v.hasOwnProperty(k)].  The method is found through the prototype chain,
    so an own property of that name (always data here, never a function)
    shadows it and the call throws. *)
Definition has_own (v : json) (k : string) : result bool :=
  match v with
  | VUndef | VNull => Err TypeError
  | VBool _ | VNum _ => Ok false
  | VStr s =>
      Ok (String.eqb k "length" || bool_decide (is_Some (arr_index (String.length s) k)))
  | VArr l =>
      Ok (String.eqb k "length" || bool_decide (is_Some (arr_index (length l) k)))
  | VObj fs =>
      if obj_has fs "hasOwnProperty" then Err TypeError else Ok (obj_has fs k)
  end.

(** The integers a JavaScript number holds exactly, for which the text of
    the number is its decimal notation. *)
Definition safe_integer (n : Z) : bool := (Z.abs n <? 9007199254740992)%Z.

(** The text of a number.  Outside the safe integers JavaScript prints the
    shortest digits that read back as the same number, with an exponent from
    [1e21] on; that text is left to [big], see [big_number] below. *)
Definition number_to_string (big : Z → string) (n : Z) : string :=
  if safe_integer n then pretty n else big n.

(** ToString, as string concatenation, a property key and
    [String.prototype.indexOf] apply it.  An object whose own [toString]
    hides the method cannot be converted. *)
Fixpoint to_string (big : Z → string) (v : json) : result string :=
  match v with
  | VUndef => Ok "undefined"
  | VNull => Ok "null"
  | VBool b => Ok (if b then "true" else "false")
  | VNum n => Ok (number_to_string big n)
  | VStr s => Ok s
  | VArr l =>
      (fix join (first : bool) (l : list json) : result string :=
         match l with
         | [] => Ok EmptyString
         | x :: l' =>
             match (match x with
                    | VUndef | VNull => Ok EmptyString
                    | _ => to_string big x
                    end), join false l' with
             | Ok sx, Ok sl => Ok ((if first then EmptyString else ",") ++ sx ++ sl)%string
             | Err e, _ => Err e
             | _, Err e => Err e
             end
         end) true l
  | VObj fs => if obj_has fs "toString" then Err TypeError else Ok "[object Object]"
  end.

Fixpoint infix_of (needle hay : string) : bool :=
  String.prefix needle hay
  || match hay with
     | EmptyString => false
     | String _ rest => infix_of needle rest
     end.

(** [a.indexOf(t) !== -1].  An array searches by [===]; a string searches
    for ToString(t) as a substring; nothing else has an [indexOf]. *)
Definition index_of_found (big : Z → string) (a t : json) : result bool :=
  match a with
  | VArr l => Ok (existsb (strict_eq t) l)
  | VStr s => match to_string big t with
              | Ok n => Ok (infix_of n s)
              | Err e => Err e
              end
  | _ => Err TypeError
  end.

(** ** The state of one client and of the libraries around it *)

(** What a property of the instance holds:
    - data;
    - the [WebSocketClient] that [connect] stores in [this.cp];
    - a parsed object or array on which line 114 has stored the connection
      [k] as its [connection] property (a [setconfig] can put such an object
      in [this.cp]);
    - the listener table that [super()] stores in [this._events].  The table
      is stored under that name and nowhere else; where data is expected it
      reads as an empty object. *)
Inductive slot :=
| Data (v : json)
| Client (id : nat)
| Patched (v : json) (k : nat)
| Table.

(** The prototype of the instance.  It starts as the class prototype
    ([IoTransit.prototype], then [EventEmitter.prototype], then
    [Object.prototype]); the [__proto__] setter can replace it by a parsed
    object or array, or by [null].  [ProtoPatched v k] is the parsed
    prototype [v] after line 114 has stored the connection [k] on its [cp]
    member. *)
Inductive proto_link :=
| ProtoClass
| ProtoData (v : json)
| ProtoPatched (v : json) (k : nat)
| ProtoNull.

(** A [WebSocketClient] made by [connect]: its [connection] property, the
    [webSocketPrefix] its listeners closed over, and whether the listeners
    are installed. *)
Record ws_client := {
  connection : option nat;
  cl_prefix : string;
  listening : bool
}.

(** A connection handed to the [connect] listener: the library's
    [connected] flag, whether it has reported [close] (it does so once), the
    prefix of the enclosing [connect] call, and which listeners are installed
    ([error] and [close] together, [message] last). *)
Record conn := {
  connected : bool;
  closed : bool;
  co_prefix : string;
  watched : bool;
  routed : bool
}.

Inductive target :=
| OnClient
| OnConnection (k : nat).

(** One call of [emit]: on which emitter, with which name and argument. *)
Record emission := {
  on : target;
  name : json;
  arg : json
}.

(** Calls into the transport.  [SendUTF] and [Send] carry the value handed
    to [JSON.stringify]. *)
Inductive wire_op :=
| WsConnect (c : nat) (url : string) (subprotocol origin : json)
| SendUTF (k : nat) (data : json)
| Send (k : nat) (data : json)
| Drop (k : nat).

(** A pending [setTimeout]: when it was armed, the delay argument, and the
    prefix its callback closed over. *)
Record timer := {
  armed_at : Z;
  delay : json;
  tm_prefix : string
}.

(** What the host and the platform decide.  The source does not fix these,
    so the state carries them and the statements below hold whatever they
    are, unless a statement names one.
    - [listens]: the event names for which the host has a listener on the
      instance.  To the code only [error] matters: [emit] throws on an
      [error] event that has no listener.
    - [big_number]: the text of a number outside the safe integers.
    - [refuses]: [WebSocketClient.connect(url, subprotocol, origin)] checks
      its arguments before it sends anything (the URL must parse and name a
      host, the subprotocol must consist of token characters, Node checks
      port and headers) and throws on a request it refuses; [refuses] gives
      the exception, or [None] when the request is accepted.
    - [stray_emit]: what [EventEmitter.prototype.emit] does when
      [this._events] holds something other than the emitter's own table,
      [undefined] or [null]: it looks the event name up in that value and in
      the built-in prototypes behind it, and what it finds there is called
      with the instance as [this] or makes it throw.  Given the value found
      in [_events], the event name, the argument and the own properties of
      the instance, it returns the exception thrown, if any, and the own
      properties afterwards. *)
Record environment := {
  listens : list string;
  big_number : Z → string;
  refuses : string → json → json → option exn;
  stray_emit : slot → json → json → gmap string slot → option exn * gmap string slot
}.

Record world := {
  own : gmap string slot;
  prototype : proto_link;
  clients : list ws_client;
  conns : list conn;
  emitted : list emission;
  wire : list wire_op;
  timers : list timer;
  now : Z;
  console : list nat;
  env : environment
}.

Definition set_own (f : gmap string slot → gmap string slot) (w : world) : world :=
  {| own := f (own w); prototype := prototype w; clients := clients w;
     conns := conns w; emitted := emitted w; wire := wire w;
     timers := timers w; now := now w; console := console w; env := env w |}.

Definition set_prototype (p : proto_link) (w : world) : world :=
  {| own := own w; prototype := p; clients := clients w;
     conns := conns w; emitted := emitted w; wire := wire w;
     timers := timers w; now := now w; console := console w; env := env w |}.

Definition set_clients (f : list ws_client → list ws_client) (w : world) : world :=
  {| own := own w; prototype := prototype w; clients := f (clients w);
     conns := conns w; emitted := emitted w; wire := wire w;
     timers := timers w; now := now w; console := console w; env := env w |}.

Definition set_conns (f : list conn → list conn) (w : world) : world :=
  {| own := own w; prototype := prototype w; clients := clients w;
     conns := f (conns w); emitted := emitted w; wire := wire w;
     timers := timers w; now := now w; console := console w; env := env w |}.

Definition set_emitted (f : list emission → list emission) (w : world) : world :=
  {| own := own w; prototype := prototype w; clients := clients w;
     conns := conns w; emitted := f (emitted w); wire := wire w;
     timers := timers w; now := now w; console := console w; env := env w |}.

Definition set_wire (f : list wire_op → list wire_op) (w : world) : world :=
  {| own := own w; prototype := prototype w; clients := clients w;
     conns := conns w; emitted := emitted w; wire := f (wire w);
     timers := timers w; now := now w; console := console w; env := env w |}.

Definition set_timers (f : list timer → list timer) (w : world) : world :=
  {| own := own w; prototype := prototype w; clients := clients w;
     conns := conns w; emitted := emitted w; wire := wire w;
     timers := f (timers w); now := now w; console := console w; env := env w |}.

Definition set_now (t : Z) (w : world) : world :=
  {| own := own w; prototype := prototype w; clients := clients w;
     conns := conns w; emitted := emitted w; wire := wire w;
     timers := timers w; now := t; console := console w; env := env w |}.

Definition set_console (f : list nat → list nat) (w : world) : world :=
  {| own := own w; prototype := prototype w; clients := clients w;
     conns := conns w; emitted := emitted w; wire := wire w;
     timers := timers w; now := now w; console := f (console w); env := env w |}.

Definition set_env (e : environment) (w : world) : world :=
  {| own := own w; prototype := prototype w; clients := clients w;
     conns := conns w; emitted := emitted w; wire := wire w;
     timers := timers w; now := now w; console := console w; env := e |}.

(** A run of a method or listener returns or throws. *)
Inductive outcome (A : Type) :=
| Ret (a : A) (w : world)
| Throw (e : exn) (w : world).
Arguments Ret {A} a w.
Arguments Throw {A} e w.

Definition M (A : Type) : Type := world → outcome A.

Definition ret {A} (a : A) : M A := λ w, Ret a w.

Definition bind {A B} (m : M A) (f : A → M B) : M B :=
  λ w, match m w with
       | Ret a w' => f a w'
       | Throw e w' => Throw e w'
       end.

Definition throw {A} (e : exn) : M A := λ w, Throw e w.

Definition lift {A} (r : result A) : M A :=
  match r with
  | Ok a => ret a
  | Err e => throw e
  end.

Definition modify (f : world → world) : M unit := λ w, Ret tt (f w).

Definition read {A} (f : world → A) : M A := λ w, Ret (f w) w.

Declare Scope js_scope.
Delimit Scope js_scope with js.
Notation "'let*' x := c 'in' k" := (bind c (λ x, k))
  (at level 10, x name, c at level 100, k at level 200,
   format "'[v' 'let*'  x  :=  c  'in' '/' k ']'") : js_scope.
Notation "c ';;' k" := (bind c (λ _, k))
  (at level 100, k at level 200, right associativity,
   format "'[v' c  ';;' '/' k ']'") : js_scope.
Open Scope js_scope.

(** ToString in the running platform. *)
Definition to_text (v : json) : M string :=
  let* big := read (λ w, big_number (env w)) in
  lift (to_string big v).

(** ** Reading and writing the instance *)

(** [this[k]] for the names the source reads as data ([options], [cp],
    [controlPlaneConnected]) and for [_events]: the own property, else what
    the prototype gives.  The class prototype holds methods only, and
    [undefined] under [_events]. *)
Definition slot_of (w : world) (k : string) : slot :=
  match own w !! k with
  | Some s => s
  | None =>
      match prototype w with
      | ProtoData v => Data (match get v k with Ok x => x | Err _ => VUndef end)
      | ProtoPatched v c =>
          let x := match get v k with Ok x => x | Err _ => VUndef end in
          if String.eqb k "cp" then Patched x c else Data x
      | ProtoClass | ProtoNull => Data VUndef
      end
  end.

(** The same when the holder is used as data; a [WebSocketClient] has none
    of the properties the source reads from [this.options] and is truthy,
    like an empty object. *)
Definition data_of (w : world) (k : string) : json :=
  match slot_of w k with
  | Data v | Patched v _ => v
  | Client _ | Table => VObj []
  end.

Definition this_get (k : string) : M slot := read (λ w, slot_of w k).

Definition this_data (k : string) : M json := read (λ w, data_of w k).

(** [this[k] = ...].  Every property of the instance and of its prototypes
    is writable data except [Object.prototype.__proto__], which is an
    accessor: unless an own or inherited data property of that name hides
    it, assigning [__proto__] calls the setter, which replaces the prototype
    when given an object or [null] and ignores anything else. *)
Definition this_set_slot (k : string) (s : slot) : M unit :=
  λ w,
    let write := Ret tt (set_own (insert k s) w) in
    if negb (String.eqb k "__proto__") then write
    else match own w !! k with
         | Some _ => write
         | None =>
             let hidden :=
               match prototype w with
               | ProtoNull => true
               | ProtoData (VObj fs) | ProtoPatched (VObj fs) _ => obj_has fs "__proto__"
               | ProtoData _ | ProtoPatched _ _ | ProtoClass => false
               end in
             if hidden then write
             else match s with
                  | Data (VObj _ as v) | Data (VArr _ as v) =>
                      Ret tt (set_prototype (ProtoData v) w)
                  | Data VNull => Ret tt (set_prototype ProtoNull w)
                  | _ => Ret tt w
                  end
         end.

Definition this_set (k : string) (v : json) : M unit := this_set_slot k (Data v).

(** [this.m] resolves to the method [m] of the class or of [EventEmitter]
    only while the instance has no own property [m] and still has the class
    prototype; any other value found there is data, and calling it is a
    [TypeError]. *)
Definition method_intact (w : world) (m : string) : bool :=
  bool_decide (own w !! m = None)
  && match prototype w with ProtoClass => true | _ => false end.

(** The emitter is as [super()] left it: [this.emit] is the method and
    [this._events] is the emitter's own table.  These are the two
    properties of the instance that [emit] goes by; [_eventsCount] and
    [_maxListeners] are read only where listeners are added or removed,
    which the class never does on the instance. *)
Definition emit_intact (w : world) : bool :=
  method_intact w "emit"
  && match own w !! "_events" with Some Table => true | _ => false end.

(** [this.emit(name, arg)] with [this] the instance, as
    [EventEmitter.prototype.emit] runs it: an [error] event without a
    listener throws; otherwise the listeners are looked up under the name as
    a property key.  On [undefined] in [_events] there is no listener; on
    [null] the lookup throws. *)
Definition emit (name arg : json) : M unit :=
  λ w,
    if negb (method_intact w "emit") then Throw TypeError w
    else
      let is_error := strict_eq name (VStr "error") in
      match slot_of w "_events" with
      | Table =>
          if is_error && negb (bool_decide ("error" ∈ listens (env w)))
          then Throw UnhandledError w
          else match to_string (big_number (env w)) name with
               | Ok _ =>
                   Ret tt (set_emitted (λ l,
                     (l ++ [{| on := OnClient; name := name; arg := arg |}])%list) w)
               | Err e => Throw e w
               end
      | Data VUndef => if is_error then Throw UnhandledError w else Ret tt w
      | Data VNull => Throw TypeError w
      | s =>
          match stray_emit (env w) s name arg (own w) with
          | (None, m) => Ret tt (set_own (λ _, m) w)
          | (Some e, m) => Throw e (set_own (λ _, m) w)
          end
      end.

(** [this.emit(name, arg)] with [this] a connection, itself an emitter, on
    which nobody listens for the names the class uses. *)
Definition emit_on_connection (k : nat) (name arg : json) : M unit :=
  modify (set_emitted (λ l, (l ++ [{| on := OnConnection k; name := name; arg := arg |}])%list)).

Definition transport (op : wire_op) : M unit :=
  modify (set_wire (λ l, (l ++ [op])%list)).

(** ** Defaults ([lib/iotransit-cp.js], lines 31-41) *)

Definition AUTH_USER : json := VStr "ext".
Definition AUTH_PASS : json := VStr "external".
Definition CONTROLPLANE_URI : json := VStr "127.0.0.1".
Definition CONTROLPLANE_PORT : json := VNum 10022.
Definition CONTROLPLANE_SUBPROTOCOL : json := VStr "cp.iotransit.net".
Definition CONTROLPLANE_ORIGIN : json := VStr "control".
Definition AUTO_RECONNECT : json := VBool true.
Definition RECONNECTION_TIMER : json := VNum 5000.
Definition SECURE_WEBSOCKET : json := VBool false.
Definition EMIT_EVENTS_AS_CP : json := VBool false.

(** ** The constructor *)

Definition field (fs : list (string * json)) (k : string) : json :=
  match obj_get fs k with Some v => v | None => VUndef end.

(** [this.options.k = this.options && this.options.k || d]; [this.options]
    is an object here, hence truthy. *)
Definition default_or (k : string) (d : json) (fs : list (string * json))
  : list (string * json) :=
  obj_set k (js_or (field fs k) d) fs.

(** [this.options.k = this.options && this.options.hasOwnProperty(k) ?
    this.options.k : d]. *)
Definition default_own (k : string) (d : json) (fs : list (string * json))
  : list (string * json) :=
  obj_set k (if obj_has fs k then field fs k else d) fs.

(** Lines 58-66. *)
Definition accept_tags (fs : list (string * json)) : list (string * json) :=
  if negb (obj_has fs "accepts")
  then obj_set "acceptTags" (VArr [field fs "appletId"]) fs
  else match field fs "accepts" with
       | VStr s => obj_set "acceptTags" (VArr [VStr s]) fs
       | VArr l => obj_set "acceptTags" (VArr l) fs
       | _ => fs
       end.

(** Lines 58-76 on the fields of [this.options].  No [hasOwnProperty] call
    can throw here: line 53 or the literal [{}] of line 55 has ruled out an
    own property of that name. *)
Definition fill_options (fs : list (string * json)) : list (string * json) :=
  let fs := accept_tags fs in
  let fs := default_or "authUser" AUTH_USER fs in
  let fs := default_or "authPass" AUTH_PASS fs in
  let fs := default_or "controlPlaneUri" CONTROLPLANE_URI fs in
  let fs := default_or "controlPlanePort" CONTROLPLANE_PORT fs in
  let fs := default_or "controlPlaneSubProtocol" CONTROLPLANE_SUBPROTOCOL fs in
  let fs := default_or "controlPlaneOrigin" CONTROLPLANE_ORIGIN fs in
  let fs := default_own "autoReconnect" AUTO_RECONNECT fs in
  let fs := default_or "reconnectionTimer" RECONNECTION_TIMER fs in
  let fs := default_own "secureWebSocket" SECURE_WEBSOCKET fs in
  default_own "emitEventsAsCP" EMIT_EVENTS_AS_CP fs.

(** Lines 49-57: the fields [this.options] starts from, or the throw. *)
Definition take_options (options : json) : M (list (string * json)) :=
  match options with
  | VNull | VUndef => throw (Error "mandatory appletId not passed to constructor")
  | VObj fs =>
      this_set "options" options;;
      let* has := lift (has_own options "appletId") in
      if has then ret fs
      else throw (Error "mandatory appletId not provided in config")
  | VArr _ =>
      this_set "options" options;;
      throw (Error "mandatory appletId not provided in config")
  | VStr s => ret [("appletId", VStr s)]
  | VBool _ | VNum _ =>
      (* [this.options] is still undefined at line 58 *)
      throw TypeError
  end.

Definition constructor (options : json) : M unit :=
  let* fs := take_options options in
  this_set "options" (VObj (fill_options fs));;
  this_set "controlPlaneConnected" (VBool false);;
  this_set "authDevice" (VStr EmptyString);;
  this_set "authDomain" (VStr EmptyString);;
  this_set "authenticated" (VBool false);;
  this_set "sn" (VStr EmptyString);;
  this_set "s2" (VStr EmptyString).

(** The environment of the examples: a host that listens to nothing, and a
    platform that refuses no request, which is right for the request made
    from the default options and is not meant for others. *)
Definition lenient : environment :=
  {| listens := [];
     big_number := pretty;
     refuses := λ _ _ _, None;
     stray_emit := λ _ _ _ m, (Some TypeError, m) |}.

(** The own properties [super()] leaves on the instance (line 48): the
    listener table, still empty, its counter, and no limit of its own.  (It
    also leaves a flag under a symbol, which no property name reaches.) *)
Definition emitter_fields : gmap string slot :=
  <["_events" := Table]>
    (<["_eventsCount" := Data (VNum 0)]>
       (<["_maxListeners" := Data VUndef]> ∅)).

(** The instance when the constructor body starts, with no transport, in
    the environment [e]. *)
Definition blank (e : environment) : world :=
  {| own := emitter_fields; prototype := ProtoClass; clients := []; conns := [];
     emitted := []; wire := []; timers := []; now := 0; console := [];
     env := e |}.

(** [new IoTransit(options)] in the environment [e]. *)
Definition new_IoTransit (e : environment) (options : json) : outcome unit :=
  constructor options (blank e).

(** ** Timers *)

Definition TIMEOUT_MAX : Z := 2147483647.

(** The delay Node gives a timer whose argument is a number: itself when it
    lies between 1 and [TIMEOUT_MAX], else 1. *)
Definition clamp (n : Z) : Z :=
  if (1 <=? n)%Z && (n <=? TIMEOUT_MAX)%Z then n else 1%Z.

(** [setTimeout(callback, d)].  Node multiplies [d] by one, which throws
    exactly where ToString does. *)
Definition setTimeout (prefix : string) (d : json) : M unit :=
  (match d with
   | VNum _ => ret tt
   | _ => let* _ := to_text d in ret tt
   end);;
  let* t := read now in
  modify (set_timers (λ l, (l ++ [{| armed_at := t; delay := d; tm_prefix := prefix |}])%list)).

(** Whether the event loop may run a pending timer.  A numeric delay must
    have elapsed; for other delays Node's conversion to a number is not
    followed and the timer may run at any time. *)
Definition ripe (t : Z) (tm : timer) : bool :=
  match delay tm with
  | VNum n => (armed_at tm + clamp n <=? t)%Z
  | _ => true
  end.

(** ** [connect] and its listeners *)

(** [this.cp.connect(webSocketPrefix + this.options.controlPlaneUri + ':' +
    this.options.controlPlanePort + '/', this.options.controlPlaneSubProtocol,
    this.options.controlPlaneOrigin)].  When [this.cp] holds no transport
    client the call ends in a [TypeError], at the property access or at the
    call.  The library throws on a request it refuses, before anything is
    sent. *)
Definition cp_connect (prefix : string) : M unit :=
  let* cp := this_get "cp" in
  match cp with
  | Client id =>
      let* o := this_data "options" in
      let* uri := lift (get o "controlPlaneUri") in
      let* uri_s := to_text uri in
      let* port := lift (get o "controlPlanePort") in
      let* port_s := to_text port in
      let* sub := lift (get o "controlPlaneSubProtocol") in
      let* origin := lift (get o "controlPlaneOrigin") in
      let url := prefix ++ uri_s ++ ":" ++ port_s ++ "/" in
      let* refusal := read (λ w, refuses (env w) url sub origin) in
      match refusal with
      | Some e => throw e
      | None => transport (WsConnect id url sub origin)
      end
  | Data _ | Patched _ _ | Table => throw TypeError
  end.

(** [if (this.options.autoReconnect) setTimeout(() => this.cp.connect(...),
    this.options.reconnectionTimer)]. *)
Definition schedule_reconnect (prefix : string) : M unit :=
  let* o := this_data "options" in
  let* auto := lift (get o "autoReconnect") in
  if truthy auto then
    let* o := this_data "options" in
    let* d := lift (get o "reconnectionTimer") in
    setTimeout prefix d
  else ret tt.

(** Lines 85-153.  When the library refuses the request, line 90 throws and
    the listeners of lines 91 and 100 are never installed. *)
Definition connect : M unit :=
  let* o := this_data "options" in
  let* secure := lift (get o "secureWebSocket") in
  let prefix := if truthy secure then "wss://" else "ws://" in
  let* id := read (λ w, length (clients w)) in
  modify (set_clients (λ l,
    (l ++ [{| connection := None; cl_prefix := prefix; listening := false |}])%list));;
  this_set_slot "cp" (Client id);;
  cp_connect prefix;;
  modify (set_clients (alter (λ c,
    {| connection := connection c; cl_prefix := cl_prefix c; listening := true |}) id)).

(** The [connectFailed] listener (lines 91-99). *)
Definition on_connectFailed (prefix : string) (err : string) : M unit :=
  this_set "controlPlaneConnected" (VBool false);;
  emit (VStr "connectionFailed") (VStr err);;
  schedule_reconnect prefix.

(** The connection [error] listener (lines 102-104).  It is a [function],
    not an arrow: the emitter calls it with [this] bound to the connection
    [k], so [this.emit] is the connection's. *)
Definition on_error (k : nat) (err : string) : M unit :=
  emit_on_connection k (VStr "connectionError") (VStr err).

(** The connection [close] listener (lines 105-113). *)
Definition on_close (prefix : string) : M unit :=
  this_set "controlPlaneConnected" (VBool false);;
  emit (VStr "connectionClose") (VStr "control plane connection closed");;
  schedule_reconnect prefix.

(** The [for ... in] loop of the [setconfig] case (lines 134-138).  The keys
    are visited in list order; the order JavaScript uses (integer-like keys
    first) gives the same result, the writes being to distinct names. *)
Fixpoint patch (p : json) (keys : list string) : M unit :=
  match keys with
  | [] => ret tt
  | o :: rest =>
      let* has := lift (has_own p o) in
      (if has && negb (String.eqb o "cmd")
       then let* v := lift (get p o) in this_set o v
       else ret tt);;
      patch p rest
  end.

Definition for_in_keys (p : json) : list string :=
  match p with
  | VObj fs => List.map fst fs
  | VArr l => List.map pretty (seq 0 (length l))
  | VStr s => List.map pretty (seq 0 (String.length s))
  | _ => []
  end.

(** [this.options.acceptTags.indexOf(t) !== -1] in the running platform. *)
Definition tag_found (tags t : json) : M bool :=
  let* big := read (λ w, big_number (env w)) in
  lift (index_of_found big tags t).

(** A frame as the [message] listener sees it: [utf8] with what
    [JSON.parse(message.utf8Data)] gives ([None] when it throws), [binary]
    with the length of its data, or another type. *)
Inductive message :=
| Utf8 (parsed : option json)
| Binary (length : nat)
| OtherFrame.

(** The [message] listener (lines 117-151). *)
Definition on_message (m : message) : M unit :=
  match m with
  | Utf8 None => throw SyntaxError
  | Utf8 (Some rcvMsg) =>
      let* t := lift (get rcvMsg "t") in
      if strict_eq t (VStr "evt") then
        let* o := this_data "options" in
        let* raw := lift (get o "emitEventsAsCP") in
        if truthy raw then emit (VStr "cpMessage") rcvMsg
        else
          let* p := lift (get rcvMsg "p") in
          let* cmd := lift (get p "cmd") in
          let* args := lift (get p "args") in
          let* dto := lift (get p "dto") in
          emit cmd (VObj [("args", args); ("dto", dto)])
      else
        let* o := this_data "options" in
        let* tags := lift (get o "acceptTags") in
        let* found := tag_found tags t in
        if found || strict_eq t (VStr "all") then
          let* p := lift (get rcvMsg "p") in
          let* cmd := lift (get p "cmd") in
          (if strict_eq cmd (VStr "loglevels") then ret tt
           else if strict_eq cmd (VStr "setconfig") then patch p (for_in_keys p)
           else ret tt);;
          emit (VStr "cpMessage") rcvMsg
        else ret tt
  | Binary n => modify (set_console (λ l, (l ++ [n])%list))
  | OtherFrame => ret tt
  end.

(** [this.cp.connection = connection] (line 114).  On a transport client
    the property is set on the client; on a parsed object or array it is set
    on that object, which may sit in an own [cp] or be the [cp] member of a
    parsed prototype; on [null], [undefined] or a primitive the assignment
    throws (the class body is strict code). *)
Definition store_connection (k : nat) : M unit :=
  λ w,
    match own w !! "cp" with
    | Some (Client id) =>
        Ret tt (set_clients (alter (λ c,
          {| connection := Some k; cl_prefix := cl_prefix c;
             listening := listening c |}) id) w)
    | Some (Data (VObj _ as v)) | Some (Data (VArr _ as v)) | Some (Patched v _) =>
        Ret tt (set_own (insert "cp" (Patched v k)) w)
    | Some Table => Ret tt (set_own (insert "cp" (Patched (VObj []) k)) w)
    | Some (Data _) => Throw TypeError w
    | None =>
        match prototype w with
        | ProtoData p | ProtoPatched p _ =>
            match get p "cp" with
            | Ok (VObj _) | Ok (VArr _) => Ret tt (set_prototype (ProtoPatched p k) w)
            | _ => Throw TypeError w
            end
        | ProtoClass | ProtoNull => Throw TypeError w
        end
    end.

(** The [connect] listener (lines 100-152), run with the connection [k] the
    library has just made. *)
Definition on_connect (prefix : string) (k : nat) : M unit :=
  let* o := this_data "options" in
  let* user := lift (get o "authUser") in
  let* pass := lift (get o "authPass") in
  let* accept := lift (get o "acceptTags") in
  transport (SendUTF k (VObj [("t", VStr "authapp");
    ("p", VObj [("user", user); ("pass", pass); ("accept", accept)])]));;
  modify (set_conns (alter (λ c,
    {| connected := connected c; closed := closed c; co_prefix := co_prefix c;
       watched := true; routed := routed c |}) k));;
  store_connection k;;
  this_set "controlPlaneConnected" (VBool true);;
  emit (VStr "connection") (VStr "control plane connected");;
  modify (set_conns (alter (λ c,
    {| connected := connected c; closed := closed c; co_prefix := co_prefix c;
       watched := watched c; routed := true |}) k)).

(** ** [disconnect] and [sendCP] *)

(** [this.cp.connection] when [this.cp] is the client [id]. *)
Definition connection_of (id : nat) (w : world) : option nat :=
  match clients w !! id with
  | Some c => connection c
  | None => None
  end.

Definition is_connected (k : nat) (w : world) : bool :=
  match conns w !! k with
  | Some c => connected c
  | None => false
  end.

(** What the library does to a connection that closes: it clears
    [connected] and marks [close] as reported. *)
Definition shut (c : conn) : conn :=
  {| connected := false; closed := true; co_prefix := co_prefix c;
     watched := watched c; routed := routed c |}.

(** [connection.drop()]: the library sends the close frame, clears
    [connected] and, unless the connection has reported [close] already,
    reports it at once, so that the [close] listener of lines 105-113 runs
    before [drop] returns. *)
Definition connection_drop (k : nat) : M unit :=
  transport (Drop k);;
  let* c := read (λ w, conns w !! k) in
  modify (set_conns (alter shut k));;
  match c with
  | Some c => if negb (closed c) && watched c then on_close (co_prefix c) else ret tt
  | None => ret tt
  end.

(** Lines 155-161.  With data in [this.cp] the chain
    [this.cp.connection.drop()] fails at one of its three steps, unless line
    114 has stored a connection on that data. *)
Definition disconnect : M unit :=
  let* flag := this_data "controlPlaneConnected" in
  if truthy flag then
    let* cp := this_get "cp" in
    match cp with
    | Client id =>
        let* c := read (connection_of id) in
        match c with
        | Some k => connection_drop k
        | None => throw TypeError
        end
    | Patched _ k => connection_drop k
    | Data _ | Table => throw TypeError
    end
  else ret tt.

(** [connection.send(JSON.stringify(sendMsg))]: [JSON.stringify(undefined)]
    is [undefined], on which [send] throws a [TypeError]; any other data is
    serialized and sent. *)
Definition connection_send (k : nat) (sendMsg : json) : M unit :=
  match sendMsg with
  | VUndef => throw TypeError
  | _ => transport (Send k sendMsg)
  end.

(** Lines 163-170. *)
Definition sendCP (sendMsg : json) : M unit :=
  let not_connected := emit (VStr "sendError") (VStr "control plane not connected") in
  let on_connection k :=
    let* up := read (is_connected k) in
    if up then connection_send k sendMsg else not_connected in
  let* cp := this_get "cp" in
  match cp with
  | Client id =>
      let* c := read (connection_of id) in
      match c with
      | None => not_connected
      | Some k => on_connection k
      end
  | Patched _ k => on_connection k
  | Data v =>
      let* c := lift (get v "connection") in
      if strict_eq c VUndef then not_connected
      else
        let* up := lift (get c "connected") in
        if truthy up then throw TypeError (* [send] is not a function *)
        else not_connected
  | Table => not_connected
  end.

(** ** The client in its environment *)

(** What can happen to a client: the host calls a method, the transport
    reports on a client or a connection, a timer runs, time passes. *)
Inductive input :=
| CallConnect
| CallDisconnect
| CallSendCP (sendMsg : json)
| ConnectFailed (c : nat) (err : string)
| Opened (c : nat)
| ErrorOn (k : nat) (err : string)
| Closed (k : nat)
| Frame (k : nat) (m : message)
| TimerFires (i : nat)
| Elapse (dt : Z).

(** [client.m(...)] as the host writes it: the call reaches the method only
    while [this.m] is the method. *)
Definition call (m : string) (body : M unit) : M unit :=
  λ w, if method_intact w m then body w else Throw TypeError w.

(** One reaction.  [None] when the input cannot occur in this state: the
    client, connection or timer does not exist, the connection has reported
    [close] already, the timer is not ripe, or time would run backwards.  An
    event without a listener returns at once.  The library makes the
    connection object before it reports [connect] and clears [connected]
    before it reports [close]. *)
Definition step (i : input) (w : world) : option (outcome unit) :=
  match i with
  | CallConnect => Some (call "connect" connect w)
  | CallDisconnect => Some (call "disconnect" disconnect w)
  | CallSendCP sendMsg => Some (call "sendCP" (sendCP sendMsg) w)
  | ConnectFailed c err =>
      c ← clients w !! c;
      Some (if listening c then on_connectFailed (cl_prefix c) err w else Ret tt w)
  | Opened c =>
      c ← clients w !! c;
      if listening c then
        let k := length (conns w) in
        let made := {| connected := true; closed := false; co_prefix := cl_prefix c;
                       watched := false; routed := false |} in
        Some (on_connect (cl_prefix c) k (set_conns (λ l, (l ++ [made])%list) w))
      else Some (Ret tt w)
  | ErrorOn k err =>
      c ← conns w !! k;
      Some (if watched c then on_error k err w else Ret tt w)
  | Closed k =>
      c ← conns w !! k;
      if closed c then None
      else
        let w' := set_conns (alter shut k) w in
        Some (if watched c then on_close (co_prefix c) w' else Ret tt w')
  | Frame k m =>
      c ← conns w !! k;
      Some (if routed c then on_message m w else Ret tt w)
  | TimerFires i =>
      tm ← timers w !! i;
      if ripe (now w) tm
      then Some (cp_connect (tm_prefix tm) (set_timers (delete i) w))
      else None
  | Elapse dt =>
      if (0 <=? dt)%Z then Some (Ret tt (set_now (now w + dt) w)) else None
  end.

(** A sequence of reactions, as long as each one returns. *)
Fixpoint run (inputs : list input) (w : world) : option (outcome unit) :=
  match inputs with
  | [] => Some (Ret tt w)
  | i :: rest =>
      match step i w with
      | Some (Ret _ w') => run rest w'
      | other => other
      end
  end.

(** The [WsConnect] calls in a transport log: the connection attempts. *)
Definition attempts (l : list wire_op) : nat :=
  length (List.filter (λ op, match op with WsConnect _ _ _ _ => true | _ => false end) l).

(** The emissions on the instance, which is what the host listens to. *)
Definition seen_by_host (w : world) : list emission :=
  List.filter (λ e, match on e with OnClient => true | OnConnection _ => false end)
    (emitted w).

(** ** Derived notions used in the statements *)

(** The state a run ends in. *)
Definition final {A} (o : outcome A) : world :=
  match o with
  | Ret _ w | Throw _ w => w
  end.

(** The client left by [new IoTransit(options)]. *)
Definition fresh (e : environment) (options : json) : world :=
  final (new_IoTransit e options).

(** [this.options.acceptTags]. *)
Definition acceptTags_of (w : world) : result json :=
  get (data_of w "options") "acceptTags".

(** [this.options.k]. *)
Definition option_of (w : world) (k : string) : result json :=
  get (data_of w "options") k.

(** The text the platform of [w] gives a value. *)
Definition text_of (w : world) (v : json) : result string :=
  to_string (big_number (env w)) v.

(** [this.options.acceptTags.indexOf(t) !== -1] on the platform of [w]. *)
Definition found_in (w : world) (tags t : json) : result bool :=
  index_of_found (big_number (env w)) tags t.

(** The state after lines 58-82, given the fields [fs] that lines 49-57
    found and the state [w0] they left. *)
Definition constructed (fs : list (string * json)) (w0 : world) : world :=
  set_own (insert "s2" (Data (VStr EmptyString)))
    (set_own (insert "sn" (Data (VStr EmptyString)))
      (set_own (insert "authenticated" (Data (VBool false)))
        (set_own (insert "authDomain" (Data (VStr EmptyString)))
          (set_own (insert "authDevice" (Data (VStr EmptyString)))
            (set_own (insert "controlPlaneConnected" (Data (VBool false)))
              (set_own (insert "options" (Data (VObj (fill_options fs)))) w0)))))).

(** The state a run of inputs returns in; a blank instance stands in when
    the run does not return, which the examples below do not use. *)
Definition after (inputs : list input) (w : world) : world :=
  match run inputs w with
  | Some (Ret _ w') => w'
  | _ => blank lenient
  end.

(** The connected client used in the examples: [new IoTransit('A')], then
    [connect()], then the transport opens connection 0. *)
Definition client_A : world :=
  after [CallConnect; Opened 0] (fresh lenient (VStr "A")).

(** The options defaulted with [||] and those defaulted with
    [hasOwnProperty], as lines 67-76 pair them with their constants. *)
Definition or_defaults : list (string * json) :=
  [("authUser", AUTH_USER); ("authPass", AUTH_PASS);
   ("controlPlaneUri", CONTROLPLANE_URI); ("controlPlanePort", CONTROLPLANE_PORT);
   ("controlPlaneSubProtocol", CONTROLPLANE_SUBPROTOCOL);
   ("controlPlaneOrigin", CONTROLPLANE_ORIGIN);
   ("reconnectionTimer", RECONNECTION_TIMER)].

Definition own_defaults : list (string * json) :=
  [("autoReconnect", AUTO_RECONNECT); ("secureWebSocket", SECURE_WEBSOCKET);
   ("emitEventsAsCP", EMIT_EVENTS_AS_CP)].

(** The emissions made between two states of one run. *)
Definition fired (w w' : world) : list emission :=
  drop (length (emitted w)) (emitted w').

(** A connected client constructed with [emitEventsAsCP: true]. *)
Definition client_raw : world :=
  after [CallConnect; Opened 0]
    (fresh lenient (VObj [("appletId", VStr "A"); ("emitEventsAsCP", VBool true)])).

(** The own properties after the loop of lines 134-138, when every write is
    an ordinary one. *)
Definition patch_own (fs : list (string * json)) (keys : list string)
    (m : gmap string slot) : gmap string slot :=
  foldl (λ m o, if obj_has fs o && negb (String.eqb o "cmd")
                then <[o := Data (field fs o)]> m else m) m keys.

(** The client of the examples right after its transport closed. *)
Definition client_closed : world := after [Closed 0] client_A.

(** Every way a method or listener can end is related by [R] to the state
    it started from. *)
Definition ends {A} (R : world → world → Prop) (m : M A) : Prop :=
  ∀ w, R w (final (m w)).

(** The part [f] of the state is the same in [w'] as in [w]. *)
Definition unchanged {B} (f : world → B) (w w' : world) : Prop := f w' = f w.

(** If [this.emit] was not the method in [w], it is not in [w'] either, and
    the host has seen nothing in between. *)
Definition muted (w w' : world) : Prop :=
  method_intact w "emit" = false →
  method_intact w' "emit" = false ∧ seen_by_host w' = seen_by_host w.

(** Nothing was removed from the timer queue between [w] and [w']: the
    timers pending in [w] are pending in [w'], in place, and new ones come
    after them. *)
Definition timers_kept (w w' : world) : Prop := timers w `prefix_of` timers w'.

(** Whether [emit] would go by [stray_emit]: the method is there, but
    [_events] holds neither the table nor [undefined] nor [null]. *)
Definition table_stray (w : world) : bool :=
  method_intact w "emit"
  && match slot_of w "_events" with
     | Table | Data VUndef | Data VNull => false
     | _ => true
     end.

(** The parts of the state that belong to the transport and the timers. *)
Definition io_state (w : world) : list ws_client * list conn * list wire_op * list timer * Z :=
  (clients w, conns w, wire w, timers w, now w).

(** The parts of the state that make up the instance. *)
Definition instance_state (w : world) : gmap string slot * proto_link :=
  (own w, prototype w).

(** A client on which [connect()] was called a second time while its first
    connection was open. *)
Definition client_twice : world := after [CallConnect] client_A.

(** A connected client constructed with [autoReconnect: false]. *)
Definition client_manual : world :=
  after [CallConnect; Opened 0]
    (fresh lenient (VObj [("appletId", VStr "A"); ("autoReconnect", VBool false)])).

(** A connected client constructed with an [accepts] that is neither a
    string nor an array. *)
Definition client_untagged : world :=
  after [CallConnect; Opened 0]
    (fresh lenient (VObj [("appletId", VStr "A"); ("accepts", VNum 5)])).

(** A [setconfig] envelope for everybody that carries the one field [k]. *)
Definition setconfig_with (k : string) (v : json) : json :=
  VObj [("t", VStr "all"); ("p", VObj [("cmd", VStr "setconfig"); (k, v)])].

(** The client of the examples after a [setconfig] that carried a field
    named [emit], and after one that carried [_events: null]. *)
Definition client_muted : world :=
  match step (Frame 0 (Utf8 (Some (setconfig_with "emit" (VNum 1))))) client_A with
  | Some o => final o
  | None => blank lenient
  end.


(** A platform like that of the examples, except that the library refuses a
    subprotocol with a space in it, and the client of the examples there
    with such a subprotocol among its options. *)
Definition picky : environment :=
  {| listens := listens lenient;
     big_number := big_number lenient;
     refuses := λ _ sub _,
       match sub with
       | VStr s => if infix_of " " s
                   then Some (Error "Protocol list contains invalid character")
                   else None
       | _ => None
       end;
     stray_emit := stray_emit lenient |}.

Definition client_spaced : world :=
  set_env picky
    (fresh lenient (VObj [("appletId", VStr "A"); ("controlPlaneSubProtocol", VStr "cp iotransit")])).

(** * Properties *)

(** ** The clients of the examples *)

(** The example clients are what the runs that define them return: the
    constructor accepts its argument, [connect] and the listeners return, and
    the client ends connected (or, for the third, closed with one timer). *)
Lemma example_clients :
  new_IoTransit lenient (VStr "A") = Ret tt (fresh lenient (VStr "A"))
  ∧ run [CallConnect; Opened 0] (fresh lenient (VStr "A")) = Some (Ret tt client_A)
  ∧ data_of client_A "controlPlaneConnected" = VBool true
  ∧ acceptTags_of client_A = Ok (VArr [VStr "A"])
  ∧ emit_intact client_A = true
  ∧ run [CallConnect; Opened 0]
      (fresh lenient (VObj [("appletId", VStr "A"); ("emitEventsAsCP", VBool true)]))
    = Some (Ret tt client_raw)
  ∧ run [Closed 0] client_A = Some (Ret tt client_closed)
  ∧ data_of client_closed "controlPlaneConnected" = VBool false.
Proof.
  split; [vm_compute; reflexivity|]. split; [vm_compute; reflexivity|].
  split; [vm_compute; reflexivity|]. split; [vm_compute; reflexivity|].
  split; [vm_compute; reflexivity|]. split; [vm_compute; reflexivity|].
  split; vm_compute; reflexivity.
Qed.

(** What opening the connection put on the wire: one connection attempt and
    the authentication envelope. *)
Lemma example_handshake :
  wire client_A =
  [WsConnect 0 "ws://127.0.0.1:10022/" (VStr "cp.iotransit.net") (VStr "control");
   SendUTF 0 (VObj [("t", VStr "authapp");
                    ("p", VObj [("user", VStr "ext"); ("pass", VStr "external");
                                ("accept", VArr [VStr "A"])])])].
Proof. vm_compute; reflexivity. Qed.

(** ** Basic facts about data *)

Lemma strict_eq_str t s : strict_eq t (VStr s) = false ↔ t ≠ VStr s.
Proof.
  destruct t; simpl; try (split; [discriminate | reflexivity]).
  rewrite String.eqb_neq. split; [congruence | intros H E; apply H; congruence].
Qed.

Lemma strict_eq_str_true t s : strict_eq t (VStr s) = true ↔ t = VStr s.
Proof.
  destruct t; simpl; try (split; discriminate).
  rewrite String.eqb_eq. split; congruence.
Qed.

Lemma obj_get_set k v fs k' :
  obj_get (obj_set k v fs) k' = if String.eqb k k' then Some v else obj_get fs k'.
Proof.
  induction fs as [|[k0 v0] fs IH]; simpl.
  - reflexivity.
  - destruct (String.eqb k0 k) eqn:E; simpl.
    + apply String.eqb_eq in E; subst k0. destruct (String.eqb k k'); reflexivity.
    + destruct (String.eqb k0 k') eqn:E'.
      * apply String.eqb_eq in E'; subst k0. rewrite String.eqb_sym, E. reflexivity.
      * apply IH.
Qed.

Lemma obj_has_set k v fs k' :
  obj_has (obj_set k v fs) k' = String.eqb k k' || obj_has fs k'.
Proof.
  unfold obj_has. rewrite obj_get_set. destruct (String.eqb k k'); reflexivity.
Qed.

Lemma field_set k v fs k' :
  field (obj_set k v fs) k' = if String.eqb k k' then v else field fs k'.
Proof.
  unfold field. rewrite obj_get_set. destruct (String.eqb k k'); reflexivity.
Qed.

Lemma get_field fs k : get (VObj fs) k = Ok (field fs k).
Proof. reflexivity. Qed.

(** ** One step of a run *)

Lemma bind_ret {A B} (m : M A) (f : A → M B) w a w1 :
  m w = Ret a w1 → bind m f w = f a w1.
Proof. intros H. unfold bind. rewrite H. reflexivity. Qed.

Lemma bind_throw {A B} (m : M A) (f : A → M B) w e w1 :
  m w = Throw e w1 → bind m f w = Throw e w1.
Proof. intros H. unfold bind. rewrite H. reflexivity. Qed.

Lemma this_data_ret k w : this_data k w = Ret (data_of w k) w.
Proof. reflexivity. Qed.

Lemma this_get_ret k w : this_get k w = Ret (slot_of w k) w.
Proof. reflexivity. Qed.

Lemma lift_ok {A} (r : result A) a w : r = Ok a → lift r w = Ret a w.
Proof. intros ->. reflexivity. Qed.

Lemma lift_err {A} (r : result A) e w : r = Err e → lift r w = Throw e w.
Proof. intros ->. reflexivity. Qed.

Lemma read_ret {A} (f : world → A) w : read f w = Ret (f w) w.
Proof. reflexivity. Qed.

Lemma modify_ret f w : modify f w = Ret tt (f w).
Proof. reflexivity. Qed.

Lemma transport_ret op w :
  transport op w = Ret tt (set_wire (λ l, (l ++ [op])%list) w).
Proof. reflexivity. Qed.

Lemma to_text_ok v s w : text_of w v = Ok s → to_text v w = Ret s w.
Proof. intros H. unfold to_text, bind, read. unfold text_of in H. rewrite H. reflexivity. Qed.

Lemma tag_found_ok tags t b w : found_in w tags t = Ok b → tag_found tags t w = Ret b w.
Proof. intros H. unfold tag_found, bind, read. unfold found_in in H. rewrite H. reflexivity. Qed.

Lemma tag_found_err tags t e w : found_in w tags t = Err e → tag_found tags t w = Throw e w.
Proof. intros H. unfold tag_found, bind, read. unfold found_in in H. rewrite H. reflexivity. Qed.

(** ** Reading the instance after a write *)

Lemma slot_of_insert w k s k' :
  slot_of (set_own (insert k s) w) k' = if String.eqb k k' then s else slot_of w k'.
Proof.
  unfold slot_of; simpl. destruct (String.eqb k k') eqn:E.
  - apply String.eqb_eq in E; subst. by rewrite lookup_insert_eq.
  - apply String.eqb_neq in E. by rewrite lookup_insert_ne.
Qed.

Lemma data_of_insert w k v k' :
  data_of (set_own (insert k (Data v)) w) k' =
  if String.eqb k k' then v else data_of w k'.
Proof.
  unfold data_of. rewrite slot_of_insert. destruct (String.eqb k k'); reflexivity.
Qed.

Lemma this_set_slot_plain k s w :
  String.eqb k "__proto__" = false →
  this_set_slot k s w = Ret tt (set_own (insert k s) w).
Proof. intros H. unfold this_set_slot. rewrite H. reflexivity. Qed.

Lemma this_set_plain k v w :
  String.eqb k "__proto__" = false →
  this_set k v w = Ret tt (set_own (insert k (Data v)) w).
Proof. apply this_set_slot_plain. Qed.

(** Comparisons of literal names, computed without touching the maps. *)
Ltac names := cbn [String.eqb Ascii.eqb Bool.eqb negb].

(** ** The emitter *)

Lemma method_intact_insert w m k s :
  k ≠ m → method_intact (set_own (insert k s) w) m = method_intact w m.
Proof.
  intros H. unfold method_intact; simpl. by rewrite lookup_insert_ne.
Qed.

Lemma emit_intact_insert w k s :
  k ≠ "emit" → k ≠ "_events" →
  emit_intact (set_own (insert k s) w) = emit_intact w.
Proof.
  intros H1 H2. unfold emit_intact. rewrite method_intact_insert by exact H1.
  cbn [own set_own]. by rewrite lookup_insert_ne.
Qed.

Lemma emit_intact_table w :
  emit_intact w = true →
  method_intact w "emit" = true ∧ slot_of w "_events" = Table.
Proof.
  unfold emit_intact. intros H. apply andb_true_iff in H as [H1 H2].
  split; [exact H1|]. unfold slot_of.
  destruct (own w !! "_events") as [[| | |]|]; try discriminate. reflexivity.
Qed.

(** With the emitter intact, an event that is not an unheard [error] and
    whose name can serve as a property key is emitted, and nothing else
    happens. *)
Lemma emit_ok name arg key w :
  emit_intact w = true →
  text_of w name = Ok key →
  name ≠ VStr "error" ∨ "error" ∈ listens (env w) →
  emit name arg w =
  Ret tt (set_emitted (λ l, (l ++ [{| on := OnClient; name := name; arg := arg |}])%list) w).
Proof.
  intros He Hk Hn. apply emit_intact_table in He as [Hm Ht].
  unfold emit. rewrite Hm, Ht. cbn [negb]. unfold text_of in Hk. rewrite Hk.
  destruct Hn as [Hn|Hn].
  - apply strict_eq_str in Hn. rewrite Hn. reflexivity.
  - rewrite (bool_decide_eq_true_2 _ Hn). cbn [negb]. rewrite andb_false_r. reflexivity.
Qed.

(** The events the class itself names. *)
Lemma emit_named s arg w :
  emit_intact w = true →
  String.eqb s "error" = false →
  emit (VStr s) arg w =
  Ret tt (set_emitted (λ l, (l ++ [{| on := OnClient; name := VStr s; arg := arg |}])%list) w).
Proof.
  intros He Hs. apply (emit_ok _ _ s); [exact He | reflexivity |].
  left. intros [= ->]. by rewrite String.eqb_refl in Hs.
Qed.


(** ** The constructor, in one piece *)

Lemma constructor_ok ev options fs w0 :
  take_options options (blank ev) = Ret fs w0 →
  new_IoTransit ev options = Ret tt (constructed fs w0).
Proof.
  intros H. unfold new_IoTransit, constructor, bind. rewrite H.
  repeat (rewrite this_set_plain by reflexivity; cbv beta iota).
  reflexivity.
Qed.

Lemma take_options_ok ev options fs w0 :
  take_options options (blank ev) = Ret fs w0 →
  (∃ s, options = VStr s ∧ fs = [("appletId", VStr s)] ∧ w0 = blank ev)
  ∨ (options = VObj fs ∧ obj_has fs "hasOwnProperty" = false
     ∧ obj_has fs "appletId" = true
     ∧ w0 = set_own (insert "options" (Data options)) (blank ev)).
Proof.
  destruct options as [| |b|n|s|l|fs']; unfold take_options, bind, throw, ret;
    rewrite ?this_set_plain by reflexivity; cbv beta iota; try discriminate.
  - intros [= <- <-]. left. exists s. auto.
  - unfold lift, has_own, throw, ret.
    destruct (obj_has fs' "hasOwnProperty") eqn:Hh; [discriminate|].
    destruct (obj_has fs' "appletId") eqn:Ha; [|discriminate].
    intros [= <- <-]. right. auto.
Qed.

Lemma constructor_inv ev options w :
  new_IoTransit ev options = Ret tt w →
  ∃ fs w0, take_options options (blank ev) = Ret fs w0 ∧ w = constructed fs w0.
Proof.
  intros H. destruct (take_options options (blank ev)) as [fs w0|e w0] eqn:E.
  - rewrite (constructor_ok _ _ _ _ E) in H. injection H as <-. eauto.
  - unfold new_IoTransit, constructor, bind in H. rewrite E in H. discriminate.
Qed.

Lemma constructed_options fs w0 :
  data_of (constructed fs w0) "options" = VObj (fill_options fs).
Proof. unfold constructed. rewrite !data_of_insert. names. reflexivity. Qed.

Lemma constructed_flag fs w0 :
  data_of (constructed fs w0) "controlPlaneConnected" = VBool false.
Proof. unfold constructed. rewrite !data_of_insert. names. reflexivity. Qed.

(** ** What the methods and listeners leave alone *)

(** A relation between the state a method or listener starts in and the
    state it ends in holds for the whole of it when it holds for the steps
    it is made of.  The steps are taken as hypotheses one after the other,
    so that each lemma asks only for the ones its code uses. *)
Section Ends.
Context (R : world → world → Prop).
Hypothesis R_refl : ∀ w, R w w.
Hypothesis R_trans : ∀ a b c, R a b → R b c → R a c.

Lemma ends_ret {A} (a : A) : ends R (ret a).
Proof. intros w. apply R_refl. Qed.

Lemma ends_throw {A} e : ends R (@throw A e).
Proof. intros w. apply R_refl. Qed.

Lemma ends_lift {A} (r : result A) : ends R (lift r).
Proof. destruct r; [apply ends_ret | apply ends_throw]. Qed.

Lemma ends_read {A} (g : world → A) : ends R (read g).
Proof. intros w. apply R_refl. Qed.

Lemma ends_modify g : (∀ w, R w (g w)) → ends R (modify g).
Proof. intros H w. apply H. Qed.

Lemma ends_bind {A C} (m : M A) (g : A → M C) :
  ends R m → (∀ a, ends R (g a)) → ends R (bind m g).
Proof.
  intros Hm Hg w. unfold bind. specialize (Hm w).
  destruct (m w) as [a w1|e w1]; cbn [final] in Hm; [|exact Hm].
  eapply R_trans; [exact Hm | apply Hg].
Qed.

Lemma ends_to_text v : ends R (to_text v).
Proof. apply ends_bind; [apply ends_read|]. intros big. apply ends_lift. Qed.

Lemma ends_tag_found tags t : ends R (tag_found tags t).
Proof. apply ends_bind; [apply ends_read|]. intros big. apply ends_lift. Qed.

Lemma ends_call m body : ends R body → ends R (call m body).
Proof.
  intros H w. unfold call. destruct (method_intact w m); [apply H | apply R_refl].
Qed.

Hypothesis R_set : ∀ k s, ends R (this_set_slot k s).

Lemma ends_this_set k v : ends R (this_set k v).
Proof. apply R_set. Qed.

Lemma ends_patch p keys : ends R (patch p keys).
Proof.
  induction keys as [|o rest IH]; [apply ends_ret|].
  cbn [patch]. apply ends_bind; [apply ends_lift|]. intros has.
  apply ends_bind; [|intros _; exact IH].
  destruct (has && negb (String.eqb o "cmd")); [|apply ends_ret].
  apply ends_bind; [apply ends_lift|]. intros v. apply ends_this_set.
Qed.

Lemma ends_take_options options : ends R (take_options options).
Proof.
  destruct options as [| |b|n|s|l|fs]; cbn [take_options];
    try apply ends_throw; try apply ends_ret.
  - apply ends_bind; [apply ends_this_set|]. intros _. apply ends_throw.
  - apply ends_bind; [apply ends_this_set|]. intros _.
    apply ends_bind; [apply ends_lift|]. intros [|]; [apply ends_ret|apply ends_throw].
Qed.

Lemma ends_constructor options : ends R (constructor options).
Proof.
  unfold constructor. apply ends_bind; [apply ends_take_options|]. intros fs.
  repeat (apply ends_bind; [apply ends_this_set|]; intros _).
  apply ends_this_set.
Qed.

Hypothesis R_emit : ∀ name arg, ends R (emit name arg).
Hypothesis R_console : ∀ g w, R w (set_console g w).

Lemma ends_on_message m : ends R (on_message m).
Proof.
  destruct m as [[rcvMsg|]|n|]; cbn [on_message].
  - apply ends_bind; [apply ends_lift|]. intros t.
    destruct (strict_eq t (VStr "evt")).
    + apply ends_bind; [apply ends_read|]. intros o.
      apply ends_bind; [apply ends_lift|]. intros raw.
      destruct (truthy raw); [apply R_emit|].
      apply ends_bind; [apply ends_lift|]. intros p.
      apply ends_bind; [apply ends_lift|]. intros cmd.
      apply ends_bind; [apply ends_lift|]. intros args.
      apply ends_bind; [apply ends_lift|]. intros dto.
      apply R_emit.
    + apply ends_bind; [apply ends_read|]. intros o.
      apply ends_bind; [apply ends_lift|]. intros tags.
      apply ends_bind; [apply ends_tag_found|]. intros found.
      destruct (found || strict_eq t (VStr "all")); [|apply ends_ret].
      apply ends_bind; [apply ends_lift|]. intros p.
      apply ends_bind; [apply ends_lift|]. intros cmd.
      apply ends_bind; [|intros _; apply R_emit].
      destruct (strict_eq cmd (VStr "loglevels")); [apply ends_ret|].
      destruct (strict_eq cmd (VStr "setconfig")); [apply ends_patch|apply ends_ret].
  - apply ends_throw.
  - apply ends_modify. intros w. apply R_console.
  - apply ends_ret.
Qed.

Hypothesis R_sent : ∀ op w,
  match op with
  | WsConnect _ _ _ _ => True
  | _ => R w (set_wire (λ l, (l ++ [op])%list) w)
  end.

Lemma ends_connection_send k sendMsg : ends R (connection_send k sendMsg).
Proof.
  destruct sendMsg as [| |b|n|s|l|fs]; cbn [connection_send];
    first [ apply ends_throw
          | apply ends_modify; intros w; apply (R_sent (Send k _)) ].
Qed.

Lemma ends_sendCP sendMsg : ends R (sendCP sendMsg).
Proof.
  assert (S : ∀ k, ends R (let* up := read (is_connected k) in
                           if up then connection_send k sendMsg
                           else emit (VStr "sendError")
                                  (VStr "control plane not connected"))).
  { intros k. apply ends_bind; [apply ends_read|].
    intros [|]; [apply ends_connection_send | apply R_emit]. }
  unfold sendCP. apply ends_bind; [apply ends_read|]. intros [v|id|v k|].
  - apply ends_bind; [apply ends_lift|]. intros c.
    destruct (strict_eq c VUndef); [apply R_emit|].
    apply ends_bind; [apply ends_lift|]. intros up.
    destruct (truthy up); [apply ends_throw|apply R_emit].
  - apply ends_bind; [apply ends_read|]. intros [k|]; [apply S|apply R_emit].
  - apply S.
  - apply R_emit.
Qed.

Hypothesis R_signal : ∀ k name arg w,
  R w (set_emitted (λ l, (l ++ [{| on := OnConnection k; name := name;
                                   arg := arg |}])%list) w).

Lemma ends_on_error k err : ends R (on_error k err).
Proof. apply ends_modify. intros w. apply R_signal. Qed.

Hypothesis R_armed : ∀ tm w, R w (set_timers (λ l, (l ++ [tm])%list) w).

Lemma ends_schedule_reconnect prefix : ends R (schedule_reconnect prefix).
Proof.
  unfold schedule_reconnect. apply ends_bind; [apply ends_read|]. intros o.
  apply ends_bind; [apply ends_lift|]. intros auto.
  destruct (truthy auto); [|apply ends_ret].
  apply ends_bind; [apply ends_read|]. intros o'.
  apply ends_bind; [apply ends_lift|]. intros d.
  unfold setTimeout. apply ends_bind.
  - destruct d; try apply ends_ret;
      (apply ends_bind; [apply ends_to_text|]; intros _; apply ends_ret).
  - intros _. apply ends_bind; [apply ends_read|]. intros t.
    apply ends_modify. intros w. apply R_armed.
Qed.

Lemma ends_report prefix name arg :
  ends R (this_set "controlPlaneConnected" (VBool false);;
          emit name arg;; schedule_reconnect prefix).
Proof.
  apply ends_bind; [apply ends_this_set|]. intros _.
  apply ends_bind; [apply R_emit|]. intros _.
  apply ends_schedule_reconnect.
Qed.

Hypothesis R_conns : ∀ g w, R w (set_conns g w).

Lemma ends_connection_drop k : ends R (connection_drop k).
Proof.
  unfold connection_drop.
  apply ends_bind; [apply ends_modify; intros w; apply (R_sent (Drop k))|]. intros _.
  apply ends_bind; [apply ends_read|]. intros c.
  apply ends_bind; [apply ends_modify; intros w; apply R_conns|]. intros _.
  destruct c as [c|]; [|apply ends_ret].
  destruct (negb (closed c) && watched c); [apply ends_report | apply ends_ret].
Qed.

Lemma ends_disconnect : ends R disconnect.
Proof.
  unfold disconnect. apply ends_bind; [apply ends_read|]. intros flag.
  destruct (truthy flag); [|apply ends_ret].
  apply ends_bind; [apply ends_read|]. intros [v|id|v k|].
  - apply ends_throw.
  - apply ends_bind; [apply ends_read|].
    intros [k|]; [apply ends_connection_drop | apply ends_throw].
  - apply ends_connection_drop.
  - apply ends_throw.
Qed.

Hypothesis R_store : ∀ k, ends R (store_connection k).

Lemma ends_on_connect prefix k : ends R (on_connect prefix k).
Proof.
  unfold on_connect. apply ends_bind; [apply ends_read|]. intros o.
  apply ends_bind; [apply ends_lift|]. intros user.
  apply ends_bind; [apply ends_lift|]. intros pass.
  apply ends_bind; [apply ends_lift|]. intros accept.
  apply ends_bind; [apply ends_modify; intros w; apply (R_sent (SendUTF k _))|].
  intros _. apply ends_bind; [apply ends_modify; intros w; apply R_conns|].
  intros _. apply ends_bind; [apply R_store|].
  intros _. apply ends_bind; [apply ends_this_set|]. intros _.
  apply ends_bind; [apply R_emit|]. intros _.
  apply ends_modify; intros w; apply R_conns.
Qed.

Hypothesis R_wire : ∀ g w, R w (set_wire g w).

Lemma ends_cp_connect prefix : ends R (cp_connect prefix).
Proof.
  unfold cp_connect. apply ends_bind; [apply ends_read|].
  intros [v|c|v k|]; try apply ends_throw.
  apply ends_bind; [apply ends_read|]. intros o'.
  apply ends_bind; [apply ends_lift|]. intros uri.
  apply ends_bind; [apply ends_to_text|]. intros uri_s.
  apply ends_bind; [apply ends_lift|]. intros port.
  apply ends_bind; [apply ends_to_text|]. intros port_s.
  apply ends_bind; [apply ends_lift|]. intros sub.
  apply ends_bind; [apply ends_lift|]. intros origin.
  apply ends_bind; [apply ends_read|]. intros [e|]; [apply ends_throw|].
  apply ends_modify. intros w. apply R_wire.
Qed.

Hypothesis R_clients : ∀ g w, R w (set_clients g w).

Lemma ends_connect : ends R connect.
Proof.
  unfold connect. apply ends_bind; [apply ends_read|]. intros o.
  apply ends_bind; [apply ends_lift|]. intros secure.
  apply ends_bind; [apply ends_read|]. intros id.
  apply ends_bind; [apply ends_modify; intros w; apply R_clients|]. intros _.
  apply ends_bind; [apply R_set|]. intros _.
  apply ends_bind; [apply ends_cp_connect|].
  intros _; apply ends_modify; intros w; apply R_clients.
Qed.
End Ends.

(** *** A part of the state that stays the same *)

Lemma unchanged_trans {B} (f : world → B) a b c :
  unchanged f a b → unchanged f b c → unchanged f a c.
Proof. unfold unchanged. congruence. Qed.

Lemma unchanged_set {B} (f : world → B) k s :
  (∀ g w, f (set_own g w) = f w) →
  (∀ p w, f (set_prototype p w) = f w) →
  ends (unchanged f) (this_set_slot k s).
Proof.
  intros f_own f_prototype w. unfold this_set_slot, unchanged.
  destruct (negb (String.eqb k "__proto__")); [apply f_own|].
  destruct (own w !! k); [apply f_own|].
  destruct (match prototype w with
            | ProtoNull => true
            | ProtoData (VObj fs) | ProtoPatched (VObj fs) _ => obj_has fs "__proto__"
            | ProtoData _ | ProtoPatched _ _ | ProtoClass => false
            end); [apply f_own|].
  destruct s as [[| |b|n|s|l|fs]|id|v c|]; first [reflexivity | apply f_prototype].
Qed.

Lemma unchanged_emit {B} (f : world → B) name arg :
  (∀ g w, f (set_emitted g w) = f w) →
  (∀ g w, f (set_own g w) = f w) →
  ends (unchanged f) (emit name arg).
Proof.
  intros f_emitted f_own w. unfold emit, unchanged.
  destruct (negb (method_intact w "emit")); [reflexivity|].
  destruct (slot_of w "_events") as [[| |b|n|s|l|fs]|id|v c|];
    try (destruct (stray_emit _ _ _ _ _) as [[e|] m]; apply f_own).
  - destruct (strict_eq name (VStr "error")); reflexivity.
  - reflexivity.
  - destruct (_ && _); [reflexivity|].
    destruct (to_string _ name); [apply f_emitted | reflexivity].
Qed.

Lemma unchanged_store {B} (f : world → B) k :
  (∀ g w, f (set_own g w) = f w) →
  (∀ p w, f (set_prototype p w) = f w) →
  (∀ g w, f (set_clients g w) = f w) →
  ends (unchanged f) (store_connection k).
Proof.
  intros f_own f_prototype f_clients w. unfold store_connection, unchanged.
  destruct (own w !! "cp") as [[[| |b|n|s|l|fs]|id|v c|]|];
    first [reflexivity | apply f_own | apply f_clients | idtac].
  destruct (prototype w) as [|p|p c|]; try reflexivity;
    (destruct (get p "cp") as [[| |b|n|s|l|fs]|e];
       first [reflexivity | apply f_prototype]).
Qed.

Ltac unchanged_side :=
  first [ solve [intros; reflexivity]
        | solve [intros ? ? ?; apply unchanged_trans]
        | solve [intros; apply unchanged_set; intros; reflexivity]
        | solve [intros; apply unchanged_emit; intros; reflexivity]
        | solve [intros; apply unchanged_store; intros; reflexivity]
        | solve [intros []; intros; first [exact I | reflexivity]] ].

(** ** [disconnect] while not connected *)

(** C10.  When the [controlPlaneConnected] flag is falsy, [disconnect]
    returns normally and leaves the whole state as it was: nothing is thrown,
    nothing emitted, nothing sent, no field changed.  This covers the client
    just constructed, on which [connect] was never called. *)
Theorem disconnect_not_connected_noop :
  (∀ w, truthy (data_of w "controlPlaneConnected") = false → disconnect w = Ret tt w)
  ∧ (∀ ev options w, new_IoTransit ev options = Ret tt w → disconnect w = Ret tt w).
Proof.
  assert (A : ∀ w, truthy (data_of w "controlPlaneConnected") = false →
                   disconnect w = Ret tt w).
  { intros w H. unfold disconnect, bind, this_data, read. rewrite H. reflexivity. }
  split; [exact A |].
  intros ev options w H. apply A.
  apply constructor_inv in H as (fs & w0 & _ & ->).
  rewrite constructed_flag. reflexivity.
Qed.

Lemma disconnect_not_connected_noop_witness :
  truthy (data_of (fresh lenient (VStr "a")) "controlPlaneConnected") = false
  ∧ disconnect (fresh lenient (VStr "a")) = Ret tt (fresh lenient (VStr "a")).
Proof.
  split; [vm_compute; reflexivity |].
  apply (proj1 disconnect_not_connected_noop). vm_compute; reflexivity.
Defined.

(** ** The router: envelopes that fail the tag filter *)

(** C1.  A text envelope whose type is neither ["evt"] nor ["all"] and is
    not found in the [acceptTags] array is dropped: the listener returns and
    the state (event log, fields of the instance, transport log, timers) is
    exactly what it was. *)
Theorem unaccepted_envelope_has_no_effect w rcvMsg t tags :
  get rcvMsg "t" = Ok t →
  t ≠ VStr "evt" →
  t ≠ VStr "all" →
  acceptTags_of w = Ok (VArr tags) →
  existsb (strict_eq t) tags = false →
  on_message (Utf8 (Some rcvMsg)) w = Ret tt w.
Proof.
  intros Ht Hevt Hall Htags Hmem.
  apply strict_eq_str in Hevt. apply strict_eq_str in Hall.
  unfold acceptTags_of in Htags.
  unfold on_message.
  rewrite (bind_ret _ _ _ _ _ (lift_ok _ _ _ Ht)), Hevt.
  rewrite (bind_ret _ _ _ _ _ (this_data_ret _ _)).
  rewrite (bind_ret _ _ _ _ _ (lift_ok _ _ _ Htags)).
  assert (F : found_in w (VArr tags) t = Ok false)
    by (unfold found_in; cbn [index_of_found]; by rewrite Hmem).
  rewrite (bind_ret _ _ _ _ _ (tag_found_ok _ _ _ _ F)).
  rewrite Hall. reflexivity.
Qed.

Lemma unaccepted_envelope_has_no_effect_witness :
  on_message (Utf8 (Some (VObj [("t", VStr "B"); ("p", VObj [("cmd", VStr "foo")])])))
    client_A = Ret tt client_A.
Proof.
  apply (unaccepted_envelope_has_no_effect client_A _ (VStr "B") [VStr "A"]);
    [reflexivity | discriminate | discriminate | vm_compute; reflexivity | reflexivity].
Defined.

(** The filter also holds when [acceptTags] is missing or is not an array:
    whatever the listener then does (it may throw at [indexOf]), it emits
    nothing and changes nothing unless the filter lets the envelope through. *)
Lemma filtered_envelope_keeps_state w rcvMsg t :
  get rcvMsg "t" = Ok t →
  t ≠ VStr "evt" →
  t ≠ VStr "all" →
  (∀ tags, acceptTags_of w = Ok tags → found_in w tags t ≠ Ok true) →
  final (on_message (Utf8 (Some rcvMsg)) w) = w.
Proof.
  intros Ht Hevt Hall Hflt.
  apply strict_eq_str in Hevt. apply strict_eq_str in Hall.
  unfold acceptTags_of in Hflt.
  unfold on_message.
  rewrite (bind_ret _ _ _ _ _ (lift_ok _ _ _ Ht)), Hevt.
  rewrite (bind_ret _ _ _ _ _ (this_data_ret _ _)).
  destruct (get (data_of w "options") "acceptTags") as [tags|e] eqn:E;
    [|rewrite (bind_throw _ _ _ _ _ (lift_err _ _ _ eq_refl)); reflexivity].
  rewrite (bind_ret _ _ _ _ _ (lift_ok _ _ _ eq_refl)).
  specialize (Hflt tags eq_refl).
  destruct (found_in w tags t) as [[|]|e] eqn:F.
  - congruence.
  - rewrite (bind_ret _ _ _ _ _ (tag_found_ok _ _ _ _ F)), Hall. reflexivity.
  - rewrite (bind_throw _ _ _ _ _ (tag_found_err _ _ _ _ F)). reflexivity.
Qed.

(** ** The constructor: a missing [appletId] *)

(** C7.  When the argument is [null], [undefined], an array, or an object
    without an own [appletId], [new IoTransit] throws; at the throw no
    transport object exists, nothing was sent, no timer is pending and
    nothing was emitted. *)
Theorem constructor_requires_appletId ev options :
  options = VNull ∨ options = VUndef ∨ (∃ l, options = VArr l)
  ∨ (∃ fs, options = VObj fs ∧ obj_has fs "appletId" = false) →
  ∃ e w, new_IoTransit ev options = Throw e w
         ∧ clients w = [] ∧ wire w = [] ∧ timers w = [] ∧ emitted w = [].
Proof.
  intros [->|[->|[[l ->]|[fs [-> H]]]]]; unfold new_IoTransit, constructor, bind; simpl.
  - eexists _, _; repeat split; reflexivity.
  - eexists _, _; repeat split; reflexivity.
  - eexists _, _; repeat split; reflexivity.
  - unfold this_set, this_set_slot, lift; simpl.
    destruct (obj_has fs "hasOwnProperty"); simpl.
    + eexists _, _; repeat split; reflexivity.
    + rewrite H. eexists _, _; repeat split; reflexivity.
Qed.

Lemma constructor_requires_appletId_witness :
  ∃ e w, new_IoTransit lenient (VObj [("accepts", VStr "x")]) = Throw e w
         ∧ clients w = [] ∧ wire w = [] ∧ timers w = [] ∧ emitted w = [].
Proof.
  apply (constructor_requires_appletId lenient (VObj [("accepts", VStr "x")])).
  right; right; right. exists [("accepts", VStr "x")]. split; reflexivity.
Defined.
(** ** The constructor: what [this.options] holds afterwards *)

Lemma constructed_from_object ev fs w :
  new_IoTransit ev (VObj fs) = Ret tt w →
  obj_has fs "hasOwnProperty" = false ∧ obj_has fs "appletId" = true
  ∧ data_of w "options" = VObj (fill_options fs).
Proof.
  intros H. apply constructor_inv in H as (fs' & w0 & E & ->).
  apply take_options_ok in E as [(s & [=] & _)|([= <-] & Hh & Ha & _)].
  split; [exact Hh | split; [exact Ha | apply constructed_options]].
Qed.

Lemma constructed_from_string ev s w :
  new_IoTransit ev (VStr s) = Ret tt w →
  data_of w "options" = VObj (fill_options [("appletId", VStr s)]).
Proof.
  intros H. apply constructor_inv in H as (fs' & w0 & E & ->).
  apply take_options_ok in E as [(s' & [= <-] & -> & _)|([=] & _)].
  apply constructed_options.
Qed.

Lemma accept_tags_field fs k :
  String.eqb "acceptTags" k = false → field (accept_tags fs) k = field fs k.
Proof.
  intros H. unfold accept_tags.
  destruct (negb (obj_has fs "accepts")); [by rewrite field_set, H|].
  destruct (field fs "accepts"); try reflexivity; by rewrite field_set, H.
Qed.

Lemma accept_tags_has fs k :
  String.eqb "acceptTags" k = false → obj_has (accept_tags fs) k = obj_has fs k.
Proof.
  intros H. unfold accept_tags.
  destruct (negb (obj_has fs "accepts")); [by rewrite obj_has_set, H|].
  destruct (field fs "accepts"); try reflexivity; by rewrite obj_has_set, H.
Qed.

Lemma field_default_or k d fs k' :
  field (default_or k d fs) k' =
  if String.eqb k k' then js_or (field fs k) d else field fs k'.
Proof. unfold default_or. apply field_set. Qed.

Lemma field_default_own k d fs k' :
  field (default_own k d fs) k' =
  if String.eqb k k' then (if obj_has fs k then field fs k else d) else field fs k'.
Proof. unfold default_own. apply field_set. Qed.

Lemma has_default_or k d fs k' :
  obj_has (default_or k d fs) k' = String.eqb k k' || obj_has fs k'.
Proof. unfold default_or. apply obj_has_set. Qed.

Lemma has_default_own k d fs k' :
  obj_has (default_own k d fs) k' = String.eqb k k' || obj_has fs k'.
Proof. unfold default_own. apply obj_has_set. Qed.

(** Reads one field of [fill_options fs] by walking lines 76 to 58
    backwards; the key is a literal, so every comparison computes. *)
Ltac read_filled :=
  unfold fill_options; cbv zeta;
  repeat (first [ rewrite field_default_or | rewrite field_default_own
                | rewrite has_default_or | rewrite has_default_own ];
          cbn [String.eqb Ascii.eqb Bool.eqb orb]);
  rewrite ?accept_tags_field, ?accept_tags_has by reflexivity.

Lemma fill_options_acceptTags fs :
  field (fill_options fs) "acceptTags" = field (accept_tags fs) "acceptTags".
Proof. read_filled. reflexivity. Qed.

(** C8, as the code has it.  After a construction that succeeds,
    [acceptTags] is [[appletId]] when no [accepts] is supplied, [[s]] when
    [accepts] is the string [s], and the array itself when [accepts] is an
    array; it is therefore non-empty whenever [accepts] is absent, a string
    or a non-empty array, and a string [s] and the array [[s]] give the same
    [acceptTags]. *)
Theorem acceptTags_normal_form :
  (∀ ev s w, new_IoTransit ev (VStr s) = Ret tt w → acceptTags_of w = Ok (VArr [VStr s]))
  ∧ (∀ ev fs w, new_IoTransit ev (VObj fs) = Ret tt w →
       (obj_has fs "accepts" = false →
          acceptTags_of w = Ok (VArr [field fs "appletId"]))
       ∧ (∀ s, obj_get fs "accepts" = Some (VStr s) →
            acceptTags_of w = Ok (VArr [VStr s]))
       ∧ (∀ l, obj_get fs "accepts" = Some (VArr l) →
            acceptTags_of w = Ok (VArr l)))
  ∧ (∀ ev1 ev2 fs1 fs2 s w1 w2,
       new_IoTransit ev1 (VObj fs1) = Ret tt w1 →
       new_IoTransit ev2 (VObj fs2) = Ret tt w2 →
       obj_get fs1 "accepts" = Some (VStr s) →
       obj_get fs2 "accepts" = Some (VArr [VStr s]) →
       acceptTags_of w1 = acceptTags_of w2).
Proof.
  assert (A : ∀ ev fs w v, new_IoTransit ev (VObj fs) = Ret tt w →
            field (accept_tags fs) "acceptTags" = v → acceptTags_of w = Ok v).
  { intros ev fs w v H <-. apply constructed_from_object in H as (_ & _ & H).
    unfold acceptTags_of. rewrite H. simpl.
    fold (field (fill_options fs) "acceptTags"). by rewrite fill_options_acceptTags. }
  assert (S : ∀ ev fs w s, new_IoTransit ev (VObj fs) = Ret tt w →
            obj_get fs "accepts" = Some (VStr s) → acceptTags_of w = Ok (VArr [VStr s])).
  { intros ev fs w s H Ha. apply (A _ _ _ _ H). unfold accept_tags, obj_has, field.
    rewrite Ha; simpl. fold (field (obj_set "acceptTags" (VArr [VStr s]) fs) "acceptTags").
    by rewrite field_set. }
  assert (L : ∀ ev fs w l, new_IoTransit ev (VObj fs) = Ret tt w →
            obj_get fs "accepts" = Some (VArr l) → acceptTags_of w = Ok (VArr l)).
  { intros ev fs w l H Ha. apply (A _ _ _ _ H). unfold accept_tags, obj_has, field.
    rewrite Ha; simpl. fold (field (obj_set "acceptTags" (VArr l) fs) "acceptTags").
    by rewrite field_set. }
  split; [|split].
  - intros ev s w H. apply constructed_from_string in H.
    unfold acceptTags_of. rewrite H. reflexivity.
  - intros ev fs w H. split; [|split].
    + intros Ha. apply (A _ _ _ _ H). unfold accept_tags. rewrite Ha; simpl.
      by rewrite field_set.
    + intros s. apply (S ev), H.
    + intros l. apply (L ev), H.
  - intros ev1 ev2 fs1 fs2 s w1 w2 H1 H2 Ha1 Ha2.
    rewrite (S _ _ _ _ H1 Ha1), (L _ _ _ _ H2 Ha2). reflexivity.
Qed.

Lemma acceptTags_normal_form_witness :
  acceptTags_of (fresh lenient (VStr "a")) = Ok (VArr [VStr "a"])
  ∧ acceptTags_of (fresh lenient (VObj [("appletId", VStr "a"); ("accepts", VStr "b")]))
    = Ok (VArr [VStr "b"])
  ∧ acceptTags_of (fresh lenient (VObj [("appletId", VStr "a"); ("accepts", VStr "b")]))
    = acceptTags_of (fresh lenient (VObj [("appletId", VStr "a"); ("accepts", VArr [VStr "b"])])).
Proof.
  split; [|split].
  - apply (proj1 acceptTags_normal_form lenient). vm_compute; reflexivity.
  - refine (proj1 (proj2 (proj1 (proj2 acceptTags_normal_form) lenient
             [("appletId", VStr "a"); ("accepts", VStr "b")] _ _)) "b" _);
      vm_compute; reflexivity.
  - apply (proj2 (proj2 acceptTags_normal_form) lenient lenient
             [("appletId", VStr "a"); ("accepts", VStr "b")]
             [("appletId", VStr "a"); ("accepts", VArr [VStr "b"])] "b");
      vm_compute; reflexivity.
Defined.

(** C8 as stated fails: an empty [accepts] array is taken as it is, the
    construction succeeds and [acceptTags] is empty. *)
Lemma acceptTags_can_be_empty :
  let options := VObj [("appletId", VStr "a"); ("accepts", VArr [])] in
  new_IoTransit lenient options = Ret tt (fresh lenient options)
  ∧ acceptTags_of (fresh lenient options) = Ok (VArr []).
Proof. split; vm_compute; reflexivity. Qed.

(** ** The constructor: defaults and overrides *)

(** X19.  What the constructed client uses for each option: a supplied value of a
    [||] option is used when it is truthy and replaced by the default when
    it is falsy; a supplied value of a [hasOwnProperty] option is always
    used. *)
Lemma supplied_option_used ev fs w :
  new_IoTransit ev (VObj fs) = Ret tt w →
  (∀ k d, (k, d) ∈ or_defaults → option_of w k = Ok (js_or (field fs k) d))
  ∧ (∀ k d, (k, d) ∈ own_defaults →
       option_of w k = Ok (if obj_has fs k then field fs k else d)).
Proof.
  intros H. apply constructed_from_object in H as (_ & _ & H).
  assert (G : ∀ k, option_of w k = Ok (field (fill_options fs) k)).
  { intros k. unfold option_of. rewrite H. reflexivity. }
  split; intros k d Hin; rewrite G; f_equal.
  - unfold or_defaults in Hin. repeat (apply elem_of_cons in Hin as [Hin|Hin]);
      try (by apply elem_of_nil in Hin); injection Hin as -> ->;
      read_filled; reflexivity.
  - unfold own_defaults in Hin. repeat (apply elem_of_cons in Hin as [Hin|Hin]);
      try (by apply elem_of_nil in Hin); injection Hin as -> ->;
      read_filled; reflexivity.
Qed.

(** C9 at its failing input.  [{appletId: 'a', reconnectionTimer: 0}] is
    accepted, and the client uses 5000, not the 0 it was given: line 74
    defaults with [||], which takes 0 for a missing value. *)
Theorem zero_reconnectionTimer_replaced ev :
  let options := VObj [("appletId", VStr "a"); ("reconnectionTimer", VNum 0)] in
  new_IoTransit ev options = Ret tt (fresh ev options)
  ∧ option_of (fresh ev options) "reconnectionTimer" = Ok (VNum 5000).
Proof. split; vm_compute; reflexivity. Qed.

(** The sibling line 73 keeps a falsy value, because it asks
    [hasOwnProperty]. *)
Lemma false_autoReconnect_kept ev :
  let options := VObj [("appletId", VStr "a"); ("autoReconnect", VBool false)] in
  new_IoTransit ev options = Ret tt (fresh ev options)
  ∧ option_of (fresh ev options) "autoReconnect" = Ok (VBool false).
Proof. split; vm_compute; reflexivity. Qed.

(** ** [sendCP] *)

Lemma constructed_has_no_cp ev options w :
  new_IoTransit ev options = Ret tt w → slot_of w "cp" = Data VUndef.
Proof.
  intros H. apply constructor_inv in H as (fs & w0 & E & ->).
  unfold constructed. rewrite !slot_of_insert. names.
  apply take_options_ok in E as [(s & _ & _ & ->)|(_ & _ & _ & ->)].
  - vm_compute; reflexivity.
  - rewrite slot_of_insert. names. vm_compute; reflexivity.
Qed.

(** C4 at its failing input.  On a client on which [connect] was never
    called, [this.cp] is undefined and [sendCP] throws a [TypeError] at
    [this.cp.connection]; no [sendError] is emitted. *)
Theorem sendCP_before_connect_throws ev sendMsg :
  new_IoTransit ev (VStr "a") = Ret tt (fresh ev (VStr "a"))
  ∧ sendCP sendMsg (fresh ev (VStr "a")) = Throw TypeError (fresh ev (VStr "a")).
Proof.
  assert (H : new_IoTransit ev (VStr "a") = Ret tt (fresh ev (VStr "a")))
    by (vm_compute; reflexivity).
  split; [exact H|].
  unfold sendCP, bind, this_get, read. rewrite (constructed_has_no_cp _ _ _ H).
  reflexivity.
Qed.

(** The same for every client just constructed. *)
Lemma sendCP_needs_connect ev options w sendMsg :
  new_IoTransit ev options = Ret tt w → sendCP sendMsg w = Throw TypeError w.
Proof.
  intros H. unfold sendCP, bind, this_get, read.
  rewrite (constructed_has_no_cp _ _ _ H). reflexivity.
Qed.

(** Once [connect] has stored a client in [this.cp], [sendCP] does what C4
    says for a message that can be serialized: with an open connection it
    goes to the transport once and nothing else changes. *)
Lemma sendCP_connected w id k sendMsg :
  slot_of w "cp" = Client id →
  connection_of id w = Some k →
  is_connected k w = true →
  sendMsg ≠ VUndef →
  sendCP sendMsg w = Ret tt (set_wire (λ l, (l ++ [Send k sendMsg])%list) w).
Proof.
  intros Hcp Hc Hup Hm. unfold sendCP, bind, this_get, read.
  rewrite Hcp, Hc, Hup. destruct sendMsg; first [reflexivity | by destruct Hm].
Qed.

(** [sendCP(undefined)] on an open connection throws: [JSON.stringify] gives
    [undefined], which [send] cannot take. *)
Lemma sendCP_undefined w id k :
  slot_of w "cp" = Client id →
  connection_of id w = Some k →
  is_connected k w = true →
  sendCP VUndef w = Throw TypeError w.
Proof.
  intros Hcp Hc Hup. unfold sendCP, bind, this_get, read.
  rewrite Hcp, Hc, Hup. reflexivity.
Qed.

(** Without an open connection, and with the emitter intact, it emits
    [sendError] and returns. *)
Lemma sendCP_not_connected w id sendMsg :
  emit_intact w = true →
  slot_of w "cp" = Client id →
  match connection_of id w with
  | Some k => is_connected k w = false
  | None => True
  end →
  sendCP sendMsg w =
  Ret tt (set_emitted (λ l, (l ++ [{| on := OnClient; name := VStr "sendError";
                                      arg := VStr "control plane not connected" |}])%list) w).
Proof.
  intros He Hcp Hc. unfold sendCP, bind, this_get, read. rewrite Hcp.
  destruct (connection_of id w) as [k|]; [rewrite Hc|];
    apply emit_named; first [exact He | reflexivity].
Qed.

(** On the connected client of the examples the message goes out once;
    after the transport closed, [sendError] is emitted instead. *)
Lemma sendCP_on_example_clients :
  (∃ w', step (CallSendCP (VStr "hello")) client_A = Some (Ret tt w')
         ∧ wire w' = (wire client_A ++ [Send 0 (VStr "hello")])%list
         ∧ fired client_A w' = [])
  ∧ (∃ w', step (CallSendCP (VStr "hello")) client_closed = Some (Ret tt w')
           ∧ wire w' = wire client_closed
           ∧ fired client_closed w' =
             [{| on := OnClient; name := VStr "sendError";
                 arg := VStr "control plane not connected" |}]).
Proof. split; eexists; (split; [|split]); vm_compute; reflexivity. Qed.

(** ** The connection [error] listener *)

(** C6 on the code.  A transport error on connection [k] leaves every field
    of the client, the connections, the timers and the transport log alone,
    as C6 says; but the one emission it makes is on the connection object,
    and what the host can observe on the client is unchanged: no
    [connectionError] reaches it. *)
Theorem connection_error_not_seen_by_host w k err :
  ∃ w', on_error k err w = Ret tt w'
        ∧ emitted w' = (emitted w ++ [{| on := OnConnection k;
                                         name := VStr "connectionError";
                                         arg := VStr err |}])%list
        ∧ seen_by_host w' = seen_by_host w
        ∧ own w' = own w ∧ prototype w' = prototype w
        ∧ clients w' = clients w ∧ conns w' = conns w
        ∧ wire w' = wire w ∧ timers w' = timers w.
Proof.
  eexists. split; [reflexivity|]. simpl. split; [reflexivity|].
  split; [|repeat split].
  unfold seen_by_host; simpl. rewrite List.filter_app; simpl. apply app_nil_r.
Qed.

(** The same through the environment, on the connected client of the
    examples: the error is delivered, and the host has seen only the
    [connection] event of the opening. *)
Lemma connection_error_on_client_A :
  ∃ w', step (ErrorOn 0 "boom") client_A = Some (Ret tt w')
        ∧ seen_by_host w' = [{| on := OnClient; name := VStr "connection";
                                arg := VStr "control plane connected" |}]
        ∧ data_of w' "controlPlaneConnected" = VBool true.
Proof. eexists. split; [vm_compute; reflexivity|]. split; vm_compute; reflexivity. Qed.

(** ** The router: event envelopes *)


Lemma fired_none w : fired w w = [].
Proof. unfold fired. apply drop_all. Qed.




(** ** The router: [setconfig] *)

Lemma patch_own_cons fs o rest m :
  patch_own fs (o :: rest) m =
  patch_own fs rest (if obj_has fs o && negb (String.eqb o "cmd")
                     then <[o := Data (field fs o)]> m else m).
Proof. reflexivity. Qed.

Lemma patch_plain fs keys w :
  obj_has fs "hasOwnProperty" = false →
  obj_has fs "__proto__" = false →
  patch (VObj fs) keys w = Ret tt (set_own (patch_own fs keys) w).
Proof.
  intros Hh Hp. revert w. induction keys as [|o rest IH]; intros w.
  - destruct w; reflexivity.
  - cbn [patch]. unfold bind at 1. unfold lift, has_own. rewrite Hh.
    cbv beta iota. unfold ret at 1. cbv beta iota. unfold bind at 1.
    destruct (obj_has fs o && negb (String.eqb o "cmd")) eqn:E.
    + unfold bind at 1. unfold get, ret at 1. cbv beta iota. fold (field fs o).
      assert (N : String.eqb o "__proto__" = false).
      { apply String.eqb_neq. intros ->. rewrite Hp in E. discriminate. }
      rewrite (this_set_plain _ _ _ N). cbv beta iota.
      rewrite IH. f_equal. unfold set_own at 1 2 3; cbn [own prototype clients conns
        emitted wire timers now console env]. rewrite patch_own_cons, E. reflexivity.
    + unfold ret at 1. cbv beta iota. rewrite IH. f_equal.
      unfold set_own; cbn [own]. rewrite patch_own_cons, E. reflexivity.
Qed.

Lemma patch_own_lookup fs keys m k :
  patch_own fs keys m !! k =
  if bool_decide (k ∈ keys) && (obj_has fs k && negb (String.eqb k "cmd"))
  then Some (Data (field fs k)) else m !! k.
Proof.
  revert m. induction keys as [|o rest IH]; intros m; [reflexivity|].
  rewrite patch_own_cons, IH. clear IH.
  destruct (decide (k = o)) as [->|Hne].
  - rewrite (bool_decide_eq_true_2 (o ∈ o :: rest)) by apply list_elem_of_here.
    cbn [andb]. destruct (obj_has fs o && negb (String.eqb o "cmd")) eqn:E.
    + rewrite lookup_insert_eq, andb_true_r.
      destruct (bool_decide (o ∈ rest)); reflexivity.
    + rewrite andb_false_r. reflexivity.
  - assert (B : bool_decide (k ∈ o :: rest) = bool_decide (k ∈ rest)).
    { apply bool_decide_ext. rewrite elem_of_cons. tauto. }
    rewrite B.
    destruct (bool_decide (k ∈ rest) && (obj_has fs k && negb (String.eqb k "cmd")));
      [reflexivity|].
    destruct (obj_has fs o && negb (String.eqb o "cmd")); [|reflexivity].
    by rewrite lookup_insert_ne.
Qed.

Lemma patch_own_keeps fs keys m k :
  obj_has fs k = false → patch_own fs keys m !! k = m !! k.
Proof. intros H. rewrite patch_own_lookup, H, andb_false_r. reflexivity. Qed.

Lemma obj_get_key fs k v : obj_get fs k = Some v → k ∈ List.map fst fs.
Proof.
  induction fs as [|[k0 v0] fs IH]; simpl; [discriminate|].
  destruct (String.eqb k0 k) eqn:E.
  - apply String.eqb_eq in E as ->. intros _. apply list_elem_of_here.
  - intros H. apply list_elem_of_further, IH, H.
Qed.

(** The listener on an accepted envelope that is not an event, up to the
    [switch] on [cmd]. *)
Lemma accepted_envelope w rcvMsg t tags found p cmd :
  get rcvMsg "t" = Ok t →
  t ≠ VStr "evt" →
  acceptTags_of w = Ok tags →
  found_in w tags t = Ok found →
  found = true ∨ t = VStr "all" →
  get rcvMsg "p" = Ok p →
  get p "cmd" = Ok cmd →
  on_message (Utf8 (Some rcvMsg)) w =
  ((if strict_eq cmd (VStr "loglevels") then ret tt
    else if strict_eq cmd (VStr "setconfig") then patch p (for_in_keys p)
    else ret tt);;
   emit (VStr "cpMessage") rcvMsg) w.
Proof.
  intros Ht Hevt Htags Hfound Hacc Hp Hcmd.
  apply strict_eq_str in Hevt. unfold acceptTags_of in Htags.
  assert (A : found || strict_eq t (VStr "all") = true).
  { destruct Hacc as [->| ->]; [reflexivity|]. apply orb_true_r. }
  unfold on_message.
  rewrite (bind_ret _ _ _ _ _ (lift_ok _ _ _ Ht)), Hevt.
  rewrite (bind_ret _ _ _ _ _ (this_data_ret _ _)).
  rewrite (bind_ret _ _ _ _ _ (lift_ok _ _ _ Htags)).
  rewrite (bind_ret _ _ _ _ _ (tag_found_ok _ _ _ _ Hfound)), A.
  rewrite (bind_ret _ _ _ _ _ (lift_ok _ _ _ Hp)).
  rewrite (bind_ret _ _ _ _ _ (lift_ok _ _ _ Hcmd)).
  reflexivity.
Qed.

(** C2 where the code departs from it.  Take an accepted envelope that is
    not an event and whose payload has [cmd] equal to ["setconfig"].  If the
    payload has a field named [hasOwnProperty], whatever its value, that
    field hides the method that line 135 calls on the payload: the call
    throws a [TypeError] in the first round of the loop, so that no field of
    the payload is written to the client, line 143 is not reached and no
    ["cpMessage"] fires.  The state is what it was. *)
Theorem setconfig_hasOwnProperty_field_throws w rcvMsg t tags found fs :
  get rcvMsg "t" = Ok t →
  t ≠ VStr "evt" →
  acceptTags_of w = Ok tags →
  found_in w tags t = Ok found →
  found = true ∨ t = VStr "all" →
  get rcvMsg "p" = Ok (VObj fs) →
  obj_get fs "cmd" = Some (VStr "setconfig") →
  obj_has fs "hasOwnProperty" = true →
  on_message (Utf8 (Some rcvMsg)) w = Throw TypeError w.
Proof.
  intros Ht Hevt Htags Hfound Hacc Hp Hcmd Hh.
  assert (C : get (VObj fs) "cmd" = Ok (VStr "setconfig")) by (cbn [get]; by rewrite Hcmd).
  rewrite (accepted_envelope _ _ _ _ _ _ _ Ht Hevt Htags Hfound Hacc Hp C).
  cbn [strict_eq String.eqb Ascii.eqb Bool.eqb for_in_keys].
  apply bind_throw.
  destruct fs as [|[k v] fs']; [discriminate|].
  cbn [List.map fst patch]. apply bind_throw, lift_err.
  unfold has_own. rewrite Hh. reflexivity.
Qed.

Lemma setconfig_hasOwnProperty_field_throws_witness :
  let x := VObj [("t", VStr "all");
                 ("p", VObj [("cmd", VStr "setconfig"); ("sn", VStr "XYZ");
                             ("hasOwnProperty", VNum 1)])] in
  on_message (Utf8 (Some x)) client_A = Throw TypeError client_A
  ∧ own client_A !! "sn" = Some (Data (VStr EmptyString))
  ∧ fired client_A client_A = [].
Proof.
  intros x. split; [|split; [vm_compute; reflexivity | apply fired_none]].
  apply (setconfig_hasOwnProperty_field_throws client_A x (VStr "all") (VArr [VStr "A"])
           false [("cmd", VStr "setconfig"); ("sn", VStr "XYZ"); ("hasOwnProperty", VNum 1)]);
    first [ discriminate | by right | vm_compute; reflexivity ].
Defined.

(** What the loop and the emission do when nothing stands in their way. *)
Lemma setconfig_result w rcvMsg t tags found fs :
  emit_intact w = true →
  get rcvMsg "t" = Ok t →
  t ≠ VStr "evt" →
  acceptTags_of w = Ok tags →
  found_in w tags t = Ok found →
  found = true ∨ t = VStr "all" →
  get rcvMsg "p" = Ok (VObj fs) →
  obj_get fs "cmd" = Some (VStr "setconfig") →
  obj_has fs "hasOwnProperty" = false →
  obj_has fs "emit" = false →
  obj_has fs "_events" = false →
  obj_has fs "__proto__" = false →
  emit_intact (set_own (patch_own fs (List.map fst fs)) w) = true
  ∧ on_message (Utf8 (Some rcvMsg)) w =
    Ret tt (set_emitted (λ l, (l ++ [{| on := OnClient; name := VStr "cpMessage";
                                        arg := rcvMsg |}])%list)
              (set_own (patch_own fs (List.map fst fs)) w)).
Proof.
  intros He Ht Hevt Htags Hfound Hacc Hp Hcmd Hh Hemit Hevents Hproto.
  assert (C : get (VObj fs) "cmd" = Ok (VStr "setconfig")) by (cbn [get]; by rewrite Hcmd).
  assert (He' : emit_intact (set_own (patch_own fs (List.map fst fs)) w) = true).
  { unfold emit_intact, method_intact in *. cbn [own prototype set_own].
    rewrite !patch_own_keeps by assumption. exact He. }
  split; [exact He'|].
  rewrite (accepted_envelope _ _ _ _ _ _ _ Ht Hevt Htags Hfound Hacc Hp C).
  cbn [strict_eq String.eqb Ascii.eqb Bool.eqb for_in_keys].
  rewrite (bind_ret _ _ _ _ _ (patch_plain _ _ _ Hh Hproto)).
  apply emit_named; [exact He' | reflexivity].
Qed.

(** C2 where the code agrees with it.  On a client whose emitter is intact,
    when the payload has no field named [hasOwnProperty], [emit], [_events]
    or [__proto__], every payload field other than [cmd] is written as an
    own field of the instance, replacing what was there, no other field
    changes, and exactly one ["cpMessage"] event fires, carrying the whole
    envelope. *)
Lemma setconfig_patches_and_emits w rcvMsg t tags found fs :
  emit_intact w = true →
  get rcvMsg "t" = Ok t →
  t ≠ VStr "evt" →
  acceptTags_of w = Ok tags →
  found_in w tags t = Ok found →
  found = true ∨ t = VStr "all" →
  get rcvMsg "p" = Ok (VObj fs) →
  obj_get fs "cmd" = Some (VStr "setconfig") →
  obj_has fs "hasOwnProperty" = false →
  obj_has fs "emit" = false →
  obj_has fs "_events" = false →
  obj_has fs "__proto__" = false →
  ∃ w', on_message (Utf8 (Some rcvMsg)) w = Ret tt w'
        ∧ (∀ k v, obj_get fs k = Some v → k ≠ "cmd" → own w' !! k = Some (Data v))
        ∧ (∀ k, obj_get fs k = None ∨ k = "cmd" → own w' !! k = own w !! k)
        ∧ fired w w' = [{| on := OnClient; name := VStr "cpMessage"; arg := rcvMsg |}]
        ∧ prototype w' = prototype w
        ∧ clients w' = clients w ∧ conns w' = conns w
        ∧ wire w' = wire w ∧ timers w' = timers w.
Proof.
  intros He Ht Hevt Htags Hfound Hacc Hp Hcmd Hh Hemit Hevents Hproto.
  eexists. split.
  - apply (setconfig_result _ _ _ _ _ _ He Ht Hevt Htags Hfound Hacc Hp Hcmd
             Hh Hemit Hevents Hproto).
  - simpl. split; [|split; [|split; [|repeat split]]].
    + intros k v Hk Hne. rewrite patch_own_lookup.
      rewrite (bool_decide_eq_true_2 _ (obj_get_key _ _ _ Hk)).
      unfold obj_has, field. rewrite Hk.
      apply String.eqb_neq in Hne. rewrite Hne. reflexivity.
    + intros k Hk. rewrite patch_own_lookup.
      destruct Hk as [Hk| ->].
      * unfold obj_has. rewrite Hk, andb_false_r. reflexivity.
      * names. rewrite !andb_false_r. reflexivity.
    + unfold fired. simpl. by rewrite drop_app_length.
Qed.

(** The example of the specification: [sn] is set and the envelope is
    passed on. *)
Lemma setconfig_on_client_A :
  let x := setconfig_with "sn" (VStr "XYZ") in
  ∃ w', step (Frame 0 (Utf8 (Some x))) client_A = Some (Ret tt w')
        ∧ own w' !! "sn" = Some (Data (VStr "XYZ"))
        ∧ fired client_A w' = [{| on := OnClient; name := VStr "cpMessage"; arg := x |}].
Proof.
  intros x. eexists. split; [vm_compute; reflexivity|].
  split; vm_compute; reflexivity.
Qed.

(** The other names that take part in the dispatch.  A field named [emit]
    is written like any other, and then hides the method: line 143 throws
    and no event fires, now or later. *)
Lemma setconfig_emit_field_silences_client :
  ∃ w', step (Frame 0 (Utf8 (Some (setconfig_with "emit" (VNum 1))))) client_A
        = Some (Throw TypeError w')
        ∧ own w' !! "emit" = Some (Data (VNum 1))
        ∧ fired client_A w' = []
        ∧ method_intact w' "emit" = false.
Proof.
  eexists. split; [vm_compute; reflexivity|].
  split; [|split]; vm_compute; reflexivity.
Qed.

(** A field named [_events] replaces the listener table of the emitter:
    with [null] there, line 143 throws, and so does every later [emit]. *)
Lemma setconfig_events_field_silences_client :
  ∃ w', step (Frame 0 (Utf8 (Some (setconfig_with "_events" VNull)))) client_A
        = Some (Throw TypeError w')
        ∧ own w' !! "_events" = Some (Data VNull)
        ∧ fired client_A w' = []
        ∧ emit_intact w' = false.
Proof.
  eexists. split; [vm_compute; reflexivity|].
  split; [|split]; vm_compute; reflexivity.
Qed.

(** A field named [__proto__] is not written at all: the assignment reaches
    the setter of [Object.prototype], which swaps the prototype of the client
    for the parsed object, and [emit] is gone with the old one. *)
Lemma setconfig_proto_field_replaces_prototype :
  ∃ w', step (Frame 0 (Utf8 (Some (setconfig_with "__proto__" (VObj []))))) client_A
        = Some (Throw TypeError w')
        ∧ own w' !! "__proto__" = None
        ∧ prototype w' = ProtoData (VObj [])
        ∧ fired client_A w' = [].
Proof.
  eexists. split; [vm_compute; reflexivity|].
  split; [|split]; vm_compute; reflexivity.
Qed.

(** ** Reconnection *)

(** What the [close] and [connectFailed] listeners share: clear the flag,
    emit, and arm the timer. *)
Lemma report_then_schedule w prefix s arg auto n :
  emit_intact w = true →
  String.eqb s "error" = false →
  option_of w "autoReconnect" = Ok auto →
  truthy auto = true →
  option_of w "reconnectionTimer" = Ok (VNum n) →
  (this_set "controlPlaneConnected" (VBool false);;
   emit (VStr s) arg;;
   schedule_reconnect prefix) w =
  Ret tt (set_timers (λ l, (l ++ [{| armed_at := now w; delay := VNum n;
                                     tm_prefix := prefix |}])%list)
           (set_emitted (λ l, (l ++ [{| on := OnClient; name := VStr s; arg := arg |}])%list)
              (set_own (insert "controlPlaneConnected" (Data (VBool false))) w))).
Proof.
  intros He Hs Hauto Ht Hn. unfold option_of in *.
  rewrite (bind_ret _ _ _ _ _ (this_set_plain "controlPlaneConnected" _ _ eq_refl)).
  erewrite bind_ret
    by (apply emit_named; [rewrite emit_intact_insert by discriminate; exact He | exact Hs]).
  assert (D : ∀ f, data_of (set_emitted f
                (set_own (insert "controlPlaneConnected" (Data (VBool false))) w)) "options"
              = data_of w "options").
  { intros f. unfold data_of, slot_of; cbn [own prototype set_emitted set_own].
    by rewrite lookup_insert_ne. }
  unfold schedule_reconnect.
  rewrite (bind_ret _ _ _ _ _ (this_data_ret _ _)), D.
  rewrite (bind_ret _ _ _ _ _ (lift_ok _ _ _ Hauto)), Ht.
  rewrite (bind_ret _ _ _ _ _ (this_data_ret _ _)), D.
  rewrite (bind_ret _ _ _ _ _ (lift_ok _ _ _ Hn)).
  reflexivity.
Qed.

Lemma report_without_schedule w prefix s arg auto :
  emit_intact w = true →
  String.eqb s "error" = false →
  option_of w "autoReconnect" = Ok auto →
  truthy auto = false →
  (this_set "controlPlaneConnected" (VBool false);;
   emit (VStr s) arg;;
   schedule_reconnect prefix) w =
  Ret tt (set_emitted (λ l, (l ++ [{| on := OnClient; name := VStr s; arg := arg |}])%list)
            (set_own (insert "controlPlaneConnected" (Data (VBool false))) w)).
Proof.
  intros He Hs Hauto Hf. unfold option_of in *.
  rewrite (bind_ret _ _ _ _ _ (this_set_plain "controlPlaneConnected" _ _ eq_refl)).
  erewrite bind_ret
    by (apply emit_named; [rewrite emit_intact_insert by discriminate; exact He | exact Hs]).
  unfold schedule_reconnect.
  rewrite (bind_ret _ _ _ _ _ (this_data_ret _ _)).
  assert (D : ∀ f, data_of (set_emitted f
                (set_own (insert "controlPlaneConnected" (Data (VBool false))) w)) "options"
              = data_of w "options").
  { intros f. unfold data_of, slot_of; cbn [own prototype set_emitted set_own].
    by rewrite lookup_insert_ne. }
  rewrite D.
  rewrite (bind_ret _ _ _ _ _ (lift_ok _ _ _ Hauto)), Hf. reflexivity.
Qed.

Lemma timers_kept_refl w : timers_kept w w.
Proof. unfold timers_kept. reflexivity. Qed.

Lemma timers_kept_trans a b c : timers_kept a b → timers_kept b c → timers_kept a c.
Proof. unfold timers_kept. intros H1 H2. by etrans. Qed.

Lemma timers_kept_same w w' : timers w' = timers w → timers_kept w w'.
Proof. unfold timers_kept. intros ->. reflexivity. Qed.

Lemma timers_kept_armed tm w : timers_kept w (set_timers (λ l, (l ++ [tm])%list) w).
Proof. unfold timers_kept. cbn [timers set_timers]. by apply prefix_app_r. Qed.

(** [disconnect] cancels nothing and connects nothing, whichever way it
    ends. *)
Lemma disconnect_keeps_timers w :
  timers_kept w (final (disconnect w))
  ∧ attempts (wire (final (disconnect w))) = attempts (wire w).
Proof.
  split.
  - apply (ends_disconnect timers_kept timers_kept_refl timers_kept_trans).
    + intros k s w0. apply timers_kept_same.
      apply (unchanged_set timers); intros; reflexivity.
    + intros name arg w0. apply timers_kept_same.
      apply (unchanged_emit timers); intros; reflexivity.
    + intros [] w0; first [exact I | apply timers_kept_same; reflexivity].
    + intros tm w0. apply timers_kept_armed.
    + intros g w0. apply timers_kept_same. reflexivity.
  - apply (ends_disconnect (unchanged (λ w, attempts (wire w)))); try unchanged_side.
    intros op w0. unfold unchanged. cbn [wire set_wire].
    destruct op; [exact I| | |]; unfold attempts;
      rewrite List.filter_app, length_app; cbn; lia.
Qed.

(** When a timer runs with a client in [this.cp], an address that can be
    written out and a request the library accepts, exactly one connection
    attempt is made and the timer is gone. *)
Lemma cp_connect_ok w prefix id uri uri_s port port_s sub origin :
  slot_of w "cp" = Client id →
  option_of w "controlPlaneUri" = Ok uri → text_of w uri = Ok uri_s →
  option_of w "controlPlanePort" = Ok port → text_of w port = Ok port_s →
  option_of w "controlPlaneSubProtocol" = Ok sub →
  option_of w "controlPlaneOrigin" = Ok origin →
  cp_connect prefix w =
  match refuses (env w) (prefix ++ uri_s ++ ":" ++ port_s ++ "/") sub origin with
  | Some e => Throw e w
  | None =>
      Ret tt (set_wire (λ l, (l ++
        [WsConnect id (prefix ++ uri_s ++ ":" ++ port_s ++ "/") sub origin])%list) w)
  end.
Proof.
  intros Hcp Huri Huris Hport Hports Hsub Horigin. unfold cp_connect.
  rewrite (bind_ret _ _ _ _ _ (this_get_ret _ _)), Hcp.
  rewrite (bind_ret _ _ _ _ _ (this_data_ret _ _)).
  rewrite (bind_ret _ _ _ _ _ (lift_ok _ _ _ Huri)).
  rewrite (bind_ret _ _ _ _ _ (to_text_ok _ _ _ Huris)).
  rewrite (bind_ret _ _ _ _ _ (lift_ok _ _ _ Hport)).
  rewrite (bind_ret _ _ _ _ _ (to_text_ok _ _ _ Hports)).
  rewrite (bind_ret _ _ _ _ _ (lift_ok _ _ _ Hsub)).
  rewrite (bind_ret _ _ _ _ _ (lift_ok _ _ _ Horigin)).
  rewrite (bind_ret _ _ _ _ _ (read_ret _ _)).
  destruct (refuses _ _ _ _); reflexivity.
Qed.

Lemma attempts_connect l c url sub origin :
  attempts (l ++ [WsConnect c url sub origin]) = S (attempts l).
Proof. unfold attempts. rewrite List.filter_app, length_app. cbn. lia. Qed.

Lemma timer_makes_one_attempt w i tm id uri uri_s port port_s sub origin :
  timers w !! i = Some tm →
  ripe (now w) tm = true →
  slot_of w "cp" = Client id →
  option_of w "controlPlaneUri" = Ok uri → text_of w uri = Ok uri_s →
  option_of w "controlPlanePort" = Ok port → text_of w port = Ok port_s →
  option_of w "controlPlaneSubProtocol" = Ok sub →
  option_of w "controlPlaneOrigin" = Ok origin →
  refuses (env w) (tm_prefix tm ++ uri_s ++ ":" ++ port_s ++ "/") sub origin = None →
  ∃ w', step (TimerFires i) w = Some (Ret tt w')
        ∧ timers w' = delete i (timers w)
        ∧ attempts (wire w') = S (attempts (wire w)).
Proof.
  intros Htm Hripe Hcp Huri Huris Hport Hports Hsub Horigin Hacc.
  eexists. split.
  - unfold step. rewrite Htm. cbn [mbind option_bind]. rewrite Hripe. f_equal.
    rewrite (cp_connect_ok (set_timers (delete i) w) (tm_prefix tm) id uri uri_s
               port port_s sub origin) by assumption.
    cbn [env set_timers]. rewrite Hacc. reflexivity.
  - cbn [timers wire set_wire set_timers]. split; [reflexivity|].
    apply attempts_connect.
Qed.

(** C5, as the code has it.  With [autoReconnect] truthy and
    [reconnectionTimer] a number [n] between 1 and [TIMEOUT_MAX], on a
    client whose emitter is intact, the [close] listener and the
    [connectFailed] listener each arm exactly one timer, make no connection
    attempt themselves, and the timer cannot run before [n] milliseconds
    have passed.  [disconnect] cancels nothing: however it ends, it has made
    no connection attempt and every timer that was pending is still pending;
    and a pending timer that runs (with a transport client in [this.cp] and
    a request the library accepts) makes one connection attempt, after a
    [disconnect] as before it. *)
Theorem close_schedules_one_reconnect w prefix auto n :
  emit_intact w = true →
  option_of w "autoReconnect" = Ok auto →
  truthy auto = true →
  option_of w "reconnectionTimer" = Ok (VNum n) →
  (1 ≤ n ≤ TIMEOUT_MAX)%Z →
  let tm := {| armed_at := now w; delay := VNum n; tm_prefix := prefix |} in
  (∃ w', on_close prefix w = Ret tt w'
         ∧ timers w' = (timers w ++ [tm])%list ∧ wire w' = wire w)
  ∧ (∀ err, ∃ w', on_connectFailed prefix err w = Ret tt w'
                  ∧ timers w' = (timers w ++ [tm])%list ∧ wire w' = wire w)
  ∧ (∀ t, ripe t tm = true → (now w + n ≤ t)%Z)
  ∧ (∀ w0, attempts (wire (final (disconnect w0))) = attempts (wire w0)
           ∧ ∀ i tm0, timers w0 !! i = Some tm0 →
               timers (final (disconnect w0)) !! i = Some tm0)
  ∧ (∀ w1 i tm1 id uri uri_s port port_s sub origin,
       timers w1 !! i = Some tm1 →
       ripe (now w1) tm1 = true →
       slot_of w1 "cp" = Client id →
       option_of w1 "controlPlaneUri" = Ok uri → text_of w1 uri = Ok uri_s →
       option_of w1 "controlPlanePort" = Ok port → text_of w1 port = Ok port_s →
       option_of w1 "controlPlaneSubProtocol" = Ok sub →
       option_of w1 "controlPlaneOrigin" = Ok origin →
       refuses (env w1) (tm_prefix tm1 ++ uri_s ++ ":" ++ port_s ++ "/") sub origin = None →
       ∃ w2, step (TimerFires i) w1 = Some (Ret tt w2)
             ∧ timers w2 = delete i (timers w1)
             ∧ attempts (wire w2) = S (attempts (wire w1))).
Proof.
  intros He Hauto Ht Hn Hrange tm. split; [|split; [|split; [|split]]].
  - eexists. split;
      [apply (report_then_schedule w prefix "connectionClose" _ auto n
                He eq_refl Hauto Ht Hn)|].
    split; reflexivity.
  - intros err. eexists.
    split; [apply (report_then_schedule w prefix "connectionFailed" _ auto n
                     He eq_refl Hauto Ht Hn)|].
    split; reflexivity.
  - intros t. unfold ripe, clamp; simpl.
    destruct Hrange as [H1 H2].
    apply Z.leb_le in H1, H2. rewrite H1, H2; simpl. apply Z.leb_le.
  - intros w0. destruct (disconnect_keeps_timers w0) as [Hk Ha].
    split; [exact Ha|]. intros i tm0 Hi.
    exact (prefix_lookup_Some _ _ _ _ Hi Hk).
  - intros w1 i tm1 id uri uri_s port port_s sub origin. apply timer_makes_one_attempt.
Qed.

Lemma close_schedules_one_reconnect_witness :
  ∃ w', on_close "ws://" client_A = Ret tt w'
        ∧ timers w' = [{| armed_at := 0; delay := VNum 5000; tm_prefix := "ws://" |}]
        ∧ wire w' = wire client_A.
Proof.
  exact (proj1 (close_schedules_one_reconnect client_A "ws://" (VBool true) 5000
                  ltac:(vm_compute; reflexivity) ltac:(vm_compute; reflexivity)
                  eq_refl ltac:(vm_compute; reflexivity)
                  ltac:(unfold TIMEOUT_MAX; lia))).
Defined.

(** C5 as stated fails.  The transport of the client of the examples
    closes and one timer is pending; [disconnect()] is then called and
    returns with the state unchanged, the timer still pending; 5000 ms later
    the timer runs and a second connection attempt goes out. *)
Lemma disconnect_does_not_cancel_reconnect :
  length (timers client_closed) = 1
  ∧ attempts (wire client_closed) = 1
  ∧ step CallDisconnect client_closed = Some (Ret tt client_closed)
  ∧ ∃ w', run [CallDisconnect; Elapse 5000; TimerFires 0] client_closed
          = Some (Ret tt w')
          ∧ attempts (wire w') = 2.
Proof.
  split; [vm_compute; reflexivity|].
  split; [vm_compute; reflexivity|].
  split; [vm_compute; reflexivity|].
  eexists. split; vm_compute; reflexivity.
Qed.

(** Called on an open connection it goes further: [drop] makes the
    connection report [close] before [disconnect] returns, the [close]
    listener arms a reconnect, and 5000 ms later the client connects
    again. *)
Lemma disconnect_while_connected_reconnects :
  ∃ w', run [CallDisconnect; Elapse 5000; TimerFires 0] client_A
        = Some (Ret tt w')
        ∧ wire w' = (wire client_A ++
                     [Drop 0;
                      WsConnect 0 "ws://127.0.0.1:10022/" (VStr "cp.iotransit.net")
                        (VStr "control")])%list.
Proof. eexists. split; vm_compute; reflexivity. Qed.

(** * Further properties of the code *)

(** ** The router: commands other than [setconfig] *)



(** ** The router: an event envelope without payload *)

(** X2.  With [emitEventsAsCP] falsy, an ["evt"] envelope whose payload is
    missing or [null] makes the listener throw a [TypeError] at
    [rcvMsg.p.cmd]; nothing is emitted and nothing changes. *)
Theorem evt_without_payload_throws w rcvMsg raw p :
  get rcvMsg "t" = Ok (VStr "evt") →
  option_of w "emitEventsAsCP" = Ok raw →
  truthy raw = false →
  get rcvMsg "p" = Ok p →
  p = VUndef ∨ p = VNull →
  on_message (Utf8 (Some rcvMsg)) w = Throw TypeError w.
Proof.
  intros Ht Hraw Hf Hp Hnull. unfold on_message.
  rewrite (bind_ret _ _ _ _ _ (lift_ok _ _ _ Ht)).
  cbn [strict_eq String.eqb Ascii.eqb Bool.eqb].
  rewrite (bind_ret _ _ _ _ _ (this_data_ret _ _)).
  rewrite (bind_ret _ _ _ _ _ (lift_ok _ _ _ Hraw)), Hf.
  rewrite (bind_ret _ _ _ _ _ (lift_ok _ _ _ Hp)).
  destruct Hnull as [-> | ->]; reflexivity.
Qed.

Lemma evt_without_payload_throws_witness :
  on_message (Utf8 (Some (VObj [("t", VStr "evt")]))) client_A
  = Throw TypeError client_A.
Proof.
  refine (evt_without_payload_throws client_A (VObj [("t", VStr "evt")])
            (VBool false) VUndef _ _ _ _ _);
    first [ by left | vm_compute; reflexivity ].
Defined.

(** ** Closing without reconnection *)

(** X3.  With [autoReconnect] falsy, on a client whose emitter is intact,
    the [close] listener and the [connectFailed] listener clear
    [controlPlaneConnected], emit their one event ([connectionClose], or
    [connectionFailed] with the error text) and do nothing else: no timer is
    armed, nothing is sent. *)
Theorem no_reconnect_without_autoReconnect w prefix auto :
  emit_intact w = true →
  option_of w "autoReconnect" = Ok auto →
  truthy auto = false →
  (∃ w', on_close prefix w = Ret tt w'
         ∧ data_of w' "controlPlaneConnected" = VBool false
         ∧ fired w w' = [{| on := OnClient; name := VStr "connectionClose";
                            arg := VStr "control plane connection closed" |}]
         ∧ io_state w' = io_state w)
  ∧ (∀ err, ∃ w', on_connectFailed prefix err w = Ret tt w'
         ∧ data_of w' "controlPlaneConnected" = VBool false
         ∧ fired w w' = [{| on := OnClient; name := VStr "connectionFailed";
                            arg := VStr err |}]
         ∧ io_state w' = io_state w).
Proof.
  intros He Hauto Hf.
  assert (F : ∀ f, data_of (set_emitted f
               (set_own (insert "controlPlaneConnected" (Data (VBool false))) w))
               "controlPlaneConnected" = VBool false).
  { intros f. unfold data_of, slot_of; cbn [own prototype set_emitted set_own].
    by rewrite lookup_insert_eq. }
  split; [|intros err]; eexists.
  - split; [apply (report_without_schedule w prefix "connectionClose" _ auto
                     He eq_refl Hauto Hf)|].
    split; [apply F|]. split; [|reflexivity].
    unfold fired; cbn [emitted set_emitted set_own]; by rewrite drop_app_length.
  - split; [apply (report_without_schedule w prefix "connectionFailed" _ auto
                     He eq_refl Hauto Hf)|].
    split; [apply F|]. split; [|reflexivity].
    unfold fired; cbn [emitted set_emitted set_own]; by rewrite drop_app_length.
Qed.

Lemma no_reconnect_without_autoReconnect_witness :
  ∃ w', on_close "ws://" client_manual = Ret tt w'
        ∧ data_of w' "controlPlaneConnected" = VBool false
        ∧ fired client_manual w' =
          [{| on := OnClient; name := VStr "connectionClose";
              arg := VStr "control plane connection closed" |}]
        ∧ io_state w' = io_state client_manual.
Proof.
  exact (proj1 (no_reconnect_without_autoReconnect client_manual "ws://" (VBool false)
                  ltac:(vm_compute; reflexivity) ltac:(vm_compute; reflexivity)
                  eq_refl)).
Defined.

(** ** [disconnect] on a connected client *)

Lemma slot_of_instance w w' k :
  instance_state w' = instance_state w → slot_of w' k = slot_of w k.
Proof. intros [= Ho Hp]. unfold slot_of. by rewrite Ho, Hp. Qed.

Lemma data_of_instance w w' k :
  instance_state w' = instance_state w → data_of w' k = data_of w k.
Proof. intros H. unfold data_of. by rewrite (slot_of_instance _ _ _ H). Qed.

Lemma emit_intact_instance w w' :
  instance_state w' = instance_state w → emit_intact w' = emit_intact w.
Proof. intros [= Ho Hp]. unfold emit_intact, method_intact. by rewrite Ho, Hp. Qed.

Lemma option_of_instance w w' k :
  instance_state w' = instance_state w → option_of w' k = option_of w k.
Proof. intros H. unfold option_of. by rewrite (data_of_instance _ _ _ H). Qed.

(** X4.  [disconnect()] on a connected client is a close.  With
    [controlPlaneConnected] truthy, a transport client in [this.cp] and on
    it a connection [k] that carries the listeners and has not closed yet,
    [disconnect] asks the transport once to drop [k]; the connection reports
    [close] before [drop] returns, so that by the time [disconnect] returns
    the [close] listener has run: [controlPlaneConnected] is [false], one
    [connectionClose] was emitted and, when [autoReconnect] is truthy, one
    reconnect timer is armed.  A client with [autoReconnect] therefore
    connects again after [disconnect()], as the comment in the source
    says. *)
Theorem disconnect_drops_the_connection w id k c auto n :
  truthy (data_of w "controlPlaneConnected") = true →
  slot_of w "cp" = Client id →
  connection_of id w = Some k →
  conns w !! k = Some c →
  watched c = true →
  closed c = false →
  emit_intact w = true →
  option_of w "autoReconnect" = Ok auto →
  option_of w "reconnectionTimer" = Ok (VNum n) →
  ∃ w', disconnect w = Ret tt w'
        ∧ wire w' = (wire w ++ [Drop k])%list
        ∧ conns w' = alter shut k (conns w)
        ∧ data_of w' "controlPlaneConnected" = VBool false
        ∧ fired w w' = [{| on := OnClient; name := VStr "connectionClose";
                           arg := VStr "control plane connection closed" |}]
        ∧ (∀ key, key ≠ "controlPlaneConnected" → slot_of w' key = slot_of w key)
        ∧ timers w' =
          (if truthy auto
           then (timers w ++ [{| armed_at := now w; delay := VNum n;
                                 tm_prefix := co_prefix c |}])%list
           else timers w).
Proof.
  intros Hflag Hcp Hc Hk Hwatched Hclosed He Hauto Hn.
  set (w2 := set_conns (alter shut k) (set_wire (λ l, (l ++ [Drop k])%list) w)).
  assert (I2 : instance_state w2 = instance_state w) by reflexivity.
  assert (S : disconnect w = on_close (co_prefix c) w2).
  { unfold disconnect.
    rewrite (bind_ret _ _ _ _ _ (this_data_ret _ _)), Hflag.
    rewrite (bind_ret _ _ _ _ _ (this_get_ret _ _)), Hcp.
    erewrite bind_ret by (unfold read; rewrite Hc; reflexivity).
    unfold connection_drop.
    rewrite (bind_ret _ _ _ _ _ (transport_ret _ _)).
    erewrite bind_ret by (unfold read; cbn [conns set_wire]; rewrite Hk; reflexivity).
    rewrite (bind_ret _ _ _ _ _ (modify_ret _ _)).
    rewrite Hclosed, Hwatched. reflexivity. }
  assert (He2 : emit_intact w2 = true) by (rewrite (emit_intact_instance w); [exact He | exact I2]).
  assert (Hauto2 : option_of w2 "autoReconnect" = Ok auto)
    by (rewrite (option_of_instance w); [exact Hauto | exact I2]).
  assert (Hn2 : option_of w2 "reconnectionTimer" = Ok (VNum n))
    by (rewrite (option_of_instance w); [exact Hn | exact I2]).
  assert (F : ∀ w3, instance_state w3 =
                    instance_state (set_own (insert "controlPlaneConnected"
                                               (Data (VBool false))) w) →
              data_of w3 "controlPlaneConnected" = VBool false
              ∧ ∀ key, key ≠ "controlPlaneConnected" → slot_of w3 key = slot_of w key).
  { intros w3 H3. split.
    - rewrite (data_of_instance _ _ _ H3), data_of_insert. by rewrite String.eqb_refl.
    - intros key Hkey. rewrite (slot_of_instance _ _ _ H3), slot_of_insert.
      apply String.eqb_neq in Hkey. rewrite String.eqb_sym in Hkey. by rewrite Hkey. }
  rewrite S. unfold on_close. destruct (truthy auto) eqn:Ht.
  - eexists. split;
      [apply (report_then_schedule w2 (co_prefix c) "connectionClose" _ auto n
                He2 eq_refl Hauto2 Ht Hn2)|].
    destruct (F (set_timers (λ l, (l ++ [{| armed_at := now w2; delay := VNum n;
                                             tm_prefix := co_prefix c |}])%list)
                   (set_emitted (λ l, (l ++ [{| on := OnClient;
                                                name := VStr "connectionClose";
                                                arg := VStr "control plane connection closed" |}])%list)
                      (set_own (insert "controlPlaneConnected" (Data (VBool false))) w2)))
                eq_refl) as [F1 F2].
    split; [reflexivity|]. split; [reflexivity|]. split; [exact F1|].
    split; [unfold fired; cbn [emitted set_timers set_emitted set_own set_conns set_wire w2];
            by rewrite drop_app_length|].
    split; [exact F2 | reflexivity].
  - eexists. split;
      [apply (report_without_schedule w2 (co_prefix c) "connectionClose" _ auto
                He2 eq_refl Hauto2 Ht)|].
    destruct (F (set_emitted (λ l, (l ++ [{| on := OnClient;
                                             name := VStr "connectionClose";
                                             arg := VStr "control plane connection closed" |}])%list)
                   (set_own (insert "controlPlaneConnected" (Data (VBool false))) w2))
                eq_refl) as [F1 F2].
    split; [reflexivity|]. split; [reflexivity|]. split; [exact F1|].
    split; [unfold fired; cbn [emitted set_timers set_emitted set_own set_conns set_wire w2];
            by rewrite drop_app_length|].
    split; [exact F2 | reflexivity].
Qed.

Lemma disconnect_drops_the_connection_witness :
  ∃ w', disconnect client_A = Ret tt w'
        ∧ wire w' = (wire client_A ++ [Drop 0])%list
        ∧ data_of w' "controlPlaneConnected" = VBool false
        ∧ fired client_A w' = [{| on := OnClient; name := VStr "connectionClose";
                                  arg := VStr "control plane connection closed" |}]
        ∧ timers w' = [{| armed_at := 0; delay := VNum 5000; tm_prefix := "ws://" |}].
Proof.
  destruct (disconnect_drops_the_connection client_A 0 0
              {| connected := true; closed := false; co_prefix := "ws://";
                 watched := true; routed := true |} (VBool true) 5000
              ltac:(vm_compute; reflexivity) ltac:(vm_compute; reflexivity)
              ltac:(vm_compute; reflexivity) ltac:(vm_compute; reflexivity)
              eq_refl eq_refl ltac:(vm_compute; reflexivity)
              ltac:(vm_compute; reflexivity) ltac:(vm_compute; reflexivity))
    as (w' & Hrun & Hwire & _ & Hflag & Hfired & _ & Htimers).
  exists w'. split; [exact Hrun|]. split; [exact Hwire|]. split; [exact Hflag|].
  split; [exact Hfired|]. rewrite Htimers. vm_compute; reflexivity.
Defined.

(** ** [disconnect] on a client that thinks it is connected *)

(** X5.  With [controlPlaneConnected] truthy but no connection to be found
    through [this.cp] (the client there has none yet, or [this.cp] holds
    data), [disconnect] throws a [TypeError] and does nothing.  This is the
    state after a second [connect()] on a connected client, until the new
    transport opens. *)
Theorem disconnect_without_connection_throws w :
  truthy (data_of w "controlPlaneConnected") = true →
  match slot_of w "cp" with
  | Client id => connection_of id w = None
  | Patched _ _ => False
  | Data _ | Table => True
  end →
  disconnect w = Throw TypeError w.
Proof.
  intros Hflag Hcp. unfold disconnect.
  rewrite (bind_ret _ _ _ _ _ (this_data_ret _ _)), Hflag.
  rewrite (bind_ret _ _ _ _ _ (this_get_ret _ _)).
  destruct (slot_of w "cp") as [v|id|v k|]; [reflexivity| |destruct Hcp|reflexivity].
  erewrite bind_ret by (unfold read; rewrite Hcp; reflexivity).
  reflexivity.
Qed.

Lemma disconnect_without_connection_throws_witness :
  run [CallConnect] client_A = Some (Ret tt client_twice)
  ∧ disconnect client_twice = Throw TypeError client_twice.
Proof.
  split; [vm_compute; reflexivity|].
  apply disconnect_without_connection_throws; vm_compute; reflexivity.
Defined.

(** ** [connect()] and the handshake *)

Lemma alter_last {A} (f : A → A) (l : list A) (x : A) :
  alter f (List.length l) (l ++ [x])%list = (l ++ [f x])%list.
Proof.
  replace (List.length l) with (length l + 0) by lia.
  rewrite alter_app_r. reflexivity.
Qed.

Lemma cp_connect_without_client w prefix :
  (∀ id, slot_of w "cp" ≠ Client id) → cp_connect prefix w = Throw TypeError w.
Proof.
  intros Hcp. unfold cp_connect.
  rewrite (bind_ret _ _ _ _ _ (this_get_ret _ _)).
  destruct (slot_of w "cp") as [v|id|v k|]; first [reflexivity | by destruct (Hcp id)].
Qed.

(** X6.  [connect()] makes a new transport client, stores it in [this.cp],
    and asks it to connect to
    [prefix + controlPlaneUri + ':' + controlPlanePort + '/'], where the
    prefix is ["wss://"] when [secureWebSocket] is truthy and ["ws://"]
    otherwise, passing the subprotocol and the origin as they are.  When the
    library accepts the request, one connection attempt is made and the
    listeners are installed.  When it refuses, [connect()] throws what the
    library threw: no attempt was made, and the new client sits in [this.cp]
    without listeners, so that nothing the transport reports on it will
    reach the class.  Either way nothing is emitted, no timer is armed and
    no other field changes. *)
Theorem connect_makes_one_attempt w secure uri uri_s port port_s sub origin :
  option_of w "secureWebSocket" = Ok secure →
  option_of w "controlPlaneUri" = Ok uri → text_of w uri = Ok uri_s →
  option_of w "controlPlanePort" = Ok port → text_of w port = Ok port_s →
  option_of w "controlPlaneSubProtocol" = Ok sub →
  option_of w "controlPlaneOrigin" = Ok origin →
  let prefix := if truthy secure then "wss://" else "ws://" in
  let url := prefix ++ uri_s ++ ":" ++ port_s ++ "/" in
  let id := List.length (clients w) in
  let made l := {| connection := None; cl_prefix := prefix; listening := l |} in
  ∃ w', slot_of w' "cp" = Client id
        ∧ (∀ k, k ≠ "cp" → slot_of w' k = slot_of w k)
        ∧ emitted w' = emitted w ∧ timers w' = timers w ∧ conns w' = conns w
        ∧ match refuses (env w) url sub origin with
          | None =>
              connect w = Ret tt w'
              ∧ wire w' = (wire w ++ [WsConnect id url sub origin])%list
              ∧ clients w' = (clients w ++ [made true])%list
          | Some e =>
              connect w = Throw e w'
              ∧ wire w' = wire w
              ∧ clients w' = (clients w ++ [made false])%list
          end.
Proof.
  intros Hsec Huri Huris Hport Hports Hsub Horigin prefix url id made.
  set (w1 := set_own (insert "cp" (Client id))
               (set_clients (λ l, (l ++ [made false])%list) w)).
  assert (D : data_of w1 "options" = data_of w "options").
  { unfold data_of, slot_of, w1; cbn [own prototype set_own set_clients].
    by rewrite lookup_insert_ne. }
  assert (O : ∀ k, option_of w1 k = option_of w k)
    by (intros k; unfold option_of; by rewrite D).
  assert (S : slot_of w1 "cp" = Client id).
  { unfold slot_of, w1; cbn [own set_own]. by rewrite lookup_insert_eq. }
  assert (N : ∀ k, k ≠ "cp" → slot_of w1 k = slot_of w k).
  { intros k Hk. unfold slot_of, w1; cbn [own prototype set_own set_clients].
    by rewrite lookup_insert_ne. }
  assert (C : connect w = (cp_connect prefix;;
                modify (set_clients (alter (λ c,
                  {| connection := connection c; cl_prefix := cl_prefix c;
                     listening := true |}) id))) w1).
  { unfold connect.
    rewrite (bind_ret _ _ _ _ _ (this_data_ret _ _)).
    rewrite (bind_ret _ _ _ _ _ (lift_ok _ _ _ Hsec)).
    fold prefix.
    rewrite (bind_ret _ _ _ _ _ (read_ret _ _)).
    rewrite (bind_ret _ _ _ _ _ (modify_ret _ _)).
    rewrite (bind_ret _ _ _ _ _ (this_set_slot_plain "cp" _ _ eq_refl)).
    reflexivity. }
  pose proof (cp_connect_ok w1 prefix id uri uri_s port port_s sub origin S
                ltac:(by rewrite O) Huris ltac:(by rewrite O) Hports
                ltac:(by rewrite O) ltac:(by rewrite O)) as K.
  change (env w1) with (env w) in K. fold url in K.
  destruct (refuses (env w) url sub origin) as [e|].
  - exists w1. split; [exact S|]. split; [exact N|].
    split; [reflexivity|]. split; [reflexivity|]. split; [reflexivity|].
    split; [rewrite C; apply bind_throw, K|]. split; reflexivity.
  - eexists. split; [|split; [|split; [|split; [|split; [|split;
      [rewrite C; rewrite (bind_ret _ _ _ _ _ K); apply modify_ret|]]]]]].
    + exact S.
    + exact N.
    + reflexivity.
    + reflexivity.
    + reflexivity.
    + split; [reflexivity|].
      unfold w1. cbn [clients set_clients set_own set_wire]. unfold id.
      rewrite alter_last. reflexivity.
Qed.

Lemma connect_makes_one_attempt_witness :
  (∃ w', connect (fresh lenient (VStr "A")) = Ret tt w'
         ∧ wire w' = [WsConnect 0 "ws://127.0.0.1:10022/" (VStr "cp.iotransit.net")
                        (VStr "control")]
         ∧ slot_of w' "cp" = Client 0)
  ∧ (∃ e w', connect client_spaced = Throw e w'
             ∧ wire w' = []
             ∧ clients w' = [{| connection := None; cl_prefix := "ws://";
                                listening := false |}]).
Proof.
  split.
  - destruct (connect_makes_one_attempt (fresh lenient (VStr "A")) (VBool false)
                (VStr "127.0.0.1") "127.0.0.1" (VNum 10022) "10022"
                (VStr "cp.iotransit.net") (VStr "control")
                ltac:(vm_compute; reflexivity) ltac:(vm_compute; reflexivity)
                ltac:(vm_compute; reflexivity) ltac:(vm_compute; reflexivity)
                ltac:(vm_compute; reflexivity) ltac:(vm_compute; reflexivity)
                ltac:(vm_compute; reflexivity))
      as (w' & Hcp & _ & _ & _ & _ & H).
    change (refuses _ _ _ _) with (@None exn) in H. destruct H as (Hrun & Hwire & _).
    exists w'. split; [exact Hrun|]. split; [|exact Hcp].
    rewrite Hwire. vm_compute; reflexivity.
  - destruct (connect_makes_one_attempt client_spaced (VBool false)
                (VStr "127.0.0.1") "127.0.0.1" (VNum 10022) "10022"
                (VStr "cp iotransit") (VStr "control")
                ltac:(vm_compute; reflexivity) ltac:(vm_compute; reflexivity)
                ltac:(vm_compute; reflexivity) ltac:(vm_compute; reflexivity)
                ltac:(vm_compute; reflexivity) ltac:(vm_compute; reflexivity)
                ltac:(vm_compute; reflexivity))
      as (w' & _ & _ & _ & _ & _ & H).
    change (refuses _ _ _ _) with (Some (Error "Protocol list contains invalid character")) in H.
    destruct H as (Hrun & Hwire & Hclients).
    eexists _, w'. split; [exact Hrun|]. split; [rewrite Hwire | rewrite Hclients];
      vm_compute; reflexivity.
Defined.

(** X7.  When the transport opens connection [k], on a client whose emitter
    is intact and whose own [cp] holds a transport client, the [connect]
    listener sends exactly one frame on [k], the authentication envelope
    [{t: 'authapp', p: {user, pass, accept}}] built from [authUser],
    [authPass] and [acceptTags] as they are at that moment; it then stores
    [k] as the connection of the client in [this.cp], sets
    [controlPlaneConnected] to [true] and emits [connection].  It waits for
    no reply and arms no timer. *)
Theorem open_sends_credentials w prefix k id user pass accept :
  emit_intact w = true →
  own w !! "cp" = Some (Client id) →
  option_of w "authUser" = Ok user →
  option_of w "authPass" = Ok pass →
  acceptTags_of w = Ok accept →
  ∃ w', on_connect prefix k w = Ret tt w'
        ∧ wire w' = (wire w ++
            [SendUTF k (VObj [("t", VStr "authapp");
               ("p", VObj [("user", user); ("pass", pass); ("accept", accept)])])])%list
        ∧ fired w w' = [{| on := OnClient; name := VStr "connection";
                           arg := VStr "control plane connected" |}]
        ∧ data_of w' "controlPlaneConnected" = VBool true
        ∧ (∀ key, key ≠ "controlPlaneConnected" → slot_of w' key = slot_of w key)
        ∧ clients w' = alter (λ c, {| connection := Some k; cl_prefix := cl_prefix c;
                                      listening := listening c |}) id (clients w)
        ∧ timers w' = timers w.
Proof.
  intros He Hcp Huser Hpass Haccept. eexists. split.
  - unfold on_connect.
    rewrite (bind_ret _ _ _ _ _ (this_data_ret _ _)).
    rewrite (bind_ret _ _ _ _ _ (lift_ok _ _ _ Huser)).
    rewrite (bind_ret _ _ _ _ _ (lift_ok _ _ _ Hpass)).
    rewrite (bind_ret _ _ _ _ _ (lift_ok _ _ _ Haccept)).
    rewrite (bind_ret _ _ _ _ _ (transport_ret _ _)).
    rewrite (bind_ret _ _ _ _ _ (modify_ret _ _)).
    erewrite bind_ret
      by (unfold store_connection; cbn [own set_conns set_wire]; rewrite Hcp; reflexivity).
    rewrite (bind_ret _ _ _ _ _ (this_set_plain "controlPlaneConnected" _ _ eq_refl)).
    erewrite bind_ret
      by (apply emit_named; [|reflexivity];
          rewrite emit_intact_insert by discriminate;
          rewrite (emit_intact_instance w) by reflexivity; exact He).
    apply modify_ret.
  - unfold fired.
    cbn [wire emitted clients timers set_conns set_emitted set_own set_clients set_wire].
    split; [reflexivity|]. split; [by rewrite drop_app_length|].
    split; [|split; [|split; reflexivity]].
    + unfold data_of, slot_of;
        cbn [own prototype set_conns set_emitted set_own set_clients set_wire].
      by rewrite lookup_insert_eq.
    + intros key Hkey. unfold slot_of;
        cbn [own prototype set_conns set_emitted set_own set_clients set_wire].
      by rewrite lookup_insert_ne.
Qed.

Lemma open_sends_credentials_witness :
  ∃ w', on_connect "ws://" 1 client_A = Ret tt w'
        ∧ wire w' = (wire client_A ++
            [SendUTF 1 (VObj [("t", VStr "authapp");
               ("p", VObj [("user", VStr "ext"); ("pass", VStr "external");
                           ("accept", VArr [VStr "A"])])])])%list.
Proof.
  destruct (open_sends_credentials client_A "ws://" 1 0 (VStr "ext") (VStr "external")
              (VArr [VStr "A"])
              ltac:(vm_compute; reflexivity) ltac:(vm_compute; reflexivity)
              ltac:(vm_compute; reflexivity) ltac:(vm_compute; reflexivity)
              ltac:(vm_compute; reflexivity))
    as (w' & Hrun & Hwire & _).
  exists w'. split; [exact Hrun | exact Hwire].
Defined.

(** ** The reconnect timer when it runs *)

(** X8.  When a pending timer runs, it is removed, and its callback asks the
    client that is in [this.cp] at that moment to connect, to the address
    built from the prefix of the [connect()] call that installed the
    listener and from the options as they are now.  When the library accepts
    the request, one connection attempt is made; when it refuses, the
    callback throws what the library threw.  If [this.cp] no longer holds a
    transport client, the callback throws a [TypeError].  The timer is gone
    in every case. *)
Theorem timer_reconnects_with_current_options w i tm :
  timers w !! i = Some tm →
  ripe (now w) tm = true →
  let w0 := set_timers (delete i) w in
  (∀ id uri uri_s port port_s sub origin,
     slot_of w "cp" = Client id →
     option_of w "controlPlaneUri" = Ok uri → text_of w uri = Ok uri_s →
     option_of w "controlPlanePort" = Ok port → text_of w port = Ok port_s →
     option_of w "controlPlaneSubProtocol" = Ok sub →
     option_of w "controlPlaneOrigin" = Ok origin →
     let url := tm_prefix tm ++ uri_s ++ ":" ++ port_s ++ "/" in
     step (TimerFires i) w =
     Some (match refuses (env w) url sub origin with
           | None => Ret tt (set_wire (λ l, (l ++ [WsConnect id url sub origin])%list) w0)
           | Some e => Throw e w0
           end))
  ∧ ((∀ id, slot_of w "cp" ≠ Client id) →
       step (TimerFires i) w = Some (Throw TypeError w0)).
Proof.
  intros Htm Hripe w0. split.
  - intros id uri uri_s port port_s sub origin Hcp Huri Huris Hport Hports Hsub Horigin url.
    unfold step. rewrite Htm. cbn [mbind option_bind]. rewrite Hripe. f_equal.
    apply (cp_connect_ok w0 (tm_prefix tm) id uri uri_s port port_s sub origin);
      assumption.
  - intros Hcp. unfold step. rewrite Htm. cbn [mbind option_bind]. rewrite Hripe.
    f_equal. apply cp_connect_without_client. exact Hcp.
Qed.

Lemma timer_reconnects_with_current_options_witness :
  step (TimerFires 0) (set_now 5000 client_closed) =
  Some (Ret tt (set_wire (λ l, (l ++
    [WsConnect 0 "ws://127.0.0.1:10022/" (VStr "cp.iotransit.net")
       (VStr "control")])%list) (set_timers (delete 0) (set_now 5000 client_closed)))).
Proof.
  refine (proj1 (timer_reconnects_with_current_options (set_now 5000 client_closed) 0
                   {| armed_at := 0; delay := VNum 5000; tm_prefix := "ws://" |} _ _)
            0 (VStr "127.0.0.1") "127.0.0.1" (VNum 10022) "10022"
            (VStr "cp.iotransit.net") (VStr "control") _ _ _ _ _ _ _);
    vm_compute; reflexivity.
Defined.
(** ** A client without [acceptTags] *)

(** X9.  When [accepts] is supplied but is neither a string nor an array,
    the constructor sets no [acceptTags]: the option stays what the caller
    put under that name, normally nothing.  A client without [acceptTags]
    cannot filter: every envelope that is not an event makes the listener
    throw a [TypeError] at [indexOf], the wildcard ["all"] included, and
    nothing is emitted or changed. *)
Theorem no_acceptTags_no_commands :
  (∀ ev fs w a, new_IoTransit ev (VObj fs) = Ret tt w →
     obj_get fs "accepts" = Some a →
     (∀ s, a ≠ VStr s) → (∀ l, a ≠ VArr l) →
     acceptTags_of w = Ok (field fs "acceptTags"))
  ∧ (∀ w rcvMsg t, get rcvMsg "t" = Ok t → t ≠ VStr "evt" →
       acceptTags_of w = Ok VUndef →
       on_message (Utf8 (Some rcvMsg)) w = Throw TypeError w).
Proof.
  split.
  - intros ev fs w a H Ha Hs Hl. apply constructed_from_object in H as (_ & _ & H).
    unfold acceptTags_of. rewrite H. cbn [get]. fold (field (fill_options fs) "acceptTags").
    rewrite fill_options_acceptTags.
    assert (Hf : field fs "accepts" = a) by (unfold field; by rewrite Ha).
    unfold accept_tags, obj_has. rewrite Ha, Hf. cbn [negb].
    destruct a as [| |b|n|s|l|fs'];
      first [ reflexivity
            | exfalso; eapply Hs; reflexivity
            | exfalso; eapply Hl; reflexivity ].
  - intros w rcvMsg t Ht Hevt Htags. apply strict_eq_str in Hevt.
    unfold on_message.
    rewrite (bind_ret _ _ _ _ _ (lift_ok _ _ _ Ht)), Hevt.
    rewrite (bind_ret _ _ _ _ _ (this_data_ret _ _)).
    rewrite (bind_ret _ _ _ _ _ (lift_ok _ _ _ Htags)).
    reflexivity.
Qed.

Lemma no_acceptTags_no_commands_witness :
  acceptTags_of client_untagged = Ok VUndef
  ∧ on_message (Utf8 (Some (VObj [("t", VStr "all"); ("p", VObj [("cmd", VStr "x")])])))
      client_untagged = Throw TypeError client_untagged.
Proof.
  split; [vm_compute; reflexivity|].
  apply (proj2 no_acceptTags_no_commands client_untagged _ (VStr "all"));
    first [ discriminate | vm_compute; reflexivity ].
Defined.

(** ** [setconfig] applied twice *)

Lemma patch_own_twice fs keys m :
  patch_own fs keys (patch_own fs keys m) = patch_own fs keys m.
Proof.
  apply map_eq. intros k. rewrite !patch_own_lookup.
  destruct (bool_decide (k ∈ keys) && (obj_has fs k && negb (String.eqb k "cmd")));
    reflexivity.
Qed.

(** X10.  A [setconfig] patch is idempotent.  Under the conditions in which
    the patch goes through (an accepted envelope, no field named
    [hasOwnProperty], [emit], [_events] or [__proto__], the emitter intact)
    and when it does not replace [options], receiving the same envelope a
    second time goes through again, leaves every field of the client as the
    first time left it, and fires a second ["cpMessage"]. *)
Theorem setconfig_twice_same_state w rcvMsg t tags found fs :
  emit_intact w = true →
  get rcvMsg "t" = Ok t →
  t ≠ VStr "evt" →
  acceptTags_of w = Ok tags →
  found_in w tags t = Ok found →
  found = true ∨ t = VStr "all" →
  get rcvMsg "p" = Ok (VObj fs) →
  obj_get fs "cmd" = Some (VStr "setconfig") →
  obj_has fs "hasOwnProperty" = false →
  obj_has fs "emit" = false →
  obj_has fs "_events" = false →
  obj_has fs "__proto__" = false →
  obj_has fs "options" = false →
  ∃ w1 w2, on_message (Utf8 (Some rcvMsg)) w = Ret tt w1
           ∧ on_message (Utf8 (Some rcvMsg)) w1 = Ret tt w2
           ∧ instance_state w2 = instance_state w1
           ∧ fired w1 w2 = [{| on := OnClient; name := VStr "cpMessage";
                               arg := rcvMsg |}].
Proof.
  intros He Ht Hevt Htags Hfound Hacc Hp Hcmd Hh Hemit Hevents Hproto Hopt.
  destruct (setconfig_result _ _ _ _ _ _ He Ht Hevt Htags Hfound Hacc Hp Hcmd
              Hh Hemit Hevents Hproto) as [He0 R1].
  set (e := {| on := OnClient; name := VStr "cpMessage"; arg := rcvMsg |}) in *.
  set (w0 := set_own (patch_own fs (List.map fst fs)) w) in *.
  set (w1 := set_emitted (λ l, (l ++ [e])%list) w0) in *.
  assert (He1 : emit_intact w1 = true)
    by (rewrite (emit_intact_instance w0); [exact He0 | reflexivity]).
  assert (Htags1 : acceptTags_of w1 = Ok tags).
  { rewrite <- Htags. unfold acceptTags_of, data_of, slot_of, w1, w0.
    cbn [own prototype set_own set_emitted].
    rewrite patch_own_keeps by exact Hopt. reflexivity. }
  destruct (setconfig_result w1 _ _ _ _ _ He1 Ht Hevt Htags1 Hfound Hacc Hp Hcmd
              Hh Hemit Hevents Hproto) as [_ R2].
  eexists _, _. split; [exact R1|]. split; [exact R2|]. split.
  - unfold instance_state, w1, w0. cbn [own prototype set_own set_emitted].
    by rewrite patch_own_twice.
  - unfold fired. cbn [emitted set_own set_emitted]. by rewrite drop_app_length.
Qed.

Lemma setconfig_twice_same_state_witness :
  let x := setconfig_with "sn" (VStr "XYZ") in
  ∃ w1 w2, on_message (Utf8 (Some x)) client_A = Ret tt w1
           ∧ on_message (Utf8 (Some x)) w1 = Ret tt w2
           ∧ instance_state w2 = instance_state w1.
Proof.
  intros x.
  destruct (setconfig_twice_same_state client_A x (VStr "all") (VArr [VStr "A"]) false
              [("cmd", VStr "setconfig"); ("sn", VStr "XYZ")]
              ltac:(vm_compute; reflexivity) eq_refl ltac:(discriminate)
              ltac:(vm_compute; reflexivity) eq_refl (or_intror eq_refl)
              eq_refl eq_refl eq_refl eq_refl eq_refl eq_refl eq_refl)
    as (w1 & w2 & H1 & H2 & H3 & _).
  exists w1, w2. auto.
Defined.
(** ** The two forms of the constructor argument *)

Lemma set_own_twice k a b w :
  set_own (insert k a) (set_own (insert k b) w) = set_own (insert k a) w.
Proof. unfold set_own; cbn [own prototype clients conns emitted wire timers now console].
  by rewrite insert_insert_eq. Qed.

(** X11.  A bare string is the object with that [appletId] and nothing else:
    [new IoTransit(s)] and [new IoTransit({appletId: s})] leave the same
    client. *)
Theorem string_argument_is_appletId ev s :
  new_IoTransit ev (VStr s) = new_IoTransit ev (VObj [("appletId", VStr s)]).
Proof.
  rewrite (constructor_ok ev (VStr s) [("appletId", VStr s)] (blank ev)) by reflexivity.
  rewrite (constructor_ok ev (VObj [("appletId", VStr s)]) [("appletId", VStr s)]
             (set_own (insert "options" (Data (VObj [("appletId", VStr s)]))) (blank ev))).
  - unfold constructed. by rewrite set_own_twice.
  - unfold take_options.
    rewrite (bind_ret _ _ _ _ _ (this_set_plain "options" _ _ eq_refl)).
    reflexivity.
Qed.

(** X12.  What the constructor accepts: it returns normally exactly for a
    string and for an object that has an own [appletId] and no own
    [hasOwnProperty]; for everything else ([null], [undefined], numbers,
    booleans, arrays, other objects) it throws. *)
Theorem constructor_accepts_exactly ev options :
  (∃ w, new_IoTransit ev options = Ret tt w)
  ↔ (∃ s, options = VStr s)
    ∨ (∃ fs, options = VObj fs ∧ obj_has fs "appletId" = true
             ∧ obj_has fs "hasOwnProperty" = false).
Proof.
  split.
  - intros [w H]. apply constructor_inv in H as (fs & w0 & E & _).
    apply take_options_ok in E as [(s & -> & _)|(-> & Hh & Ha & _)]; eauto 6.
  - intros [[s ->]|(fs & -> & Ha & Hh)].
    + eexists. apply (constructor_ok ev (VStr s) [("appletId", VStr s)] (blank ev)). reflexivity.
    + eexists. apply (constructor_ok ev (VObj fs) fs
        (set_own (insert "options" (Data (VObj fs))) (blank ev))).
      unfold take_options.
      rewrite (bind_ret _ _ _ _ _ (this_set_plain "options" _ _ eq_refl)).
      unfold has_own. rewrite Hh, Ha. reflexivity.
Qed.

Lemma constructor_accepts_exactly_witness :
  (∃ w, new_IoTransit lenient (VObj [("appletId", VNum 7)]) = Ret tt w)
  ∧ ¬ (∃ w, new_IoTransit lenient (VObj [("appletId", VStr "a"); ("hasOwnProperty", VNull)])
            = Ret tt w).
Proof.
  split.
  - apply (proj2 (constructor_accepts_exactly lenient (VObj [("appletId", VNum 7)]))).
    right. exists [("appletId", VNum 7)]. repeat split.
  - intros H.
    apply (proj1 (constructor_accepts_exactly _ _)) in H as [[s [=]]|(fs & [= <-] & _ & H)].
    discriminate.
Defined.

(** X19 at an input: supplied truthy values override the defaults. *)
Lemma supplied_option_used_witness :
  let fs := [("appletId", VStr "a"); ("authUser", VStr "bob");
             ("secureWebSocket", VBool true)] in
  option_of (fresh lenient (VObj fs)) "authUser" = Ok (VStr "bob")
  ∧ option_of (fresh lenient (VObj fs)) "secureWebSocket" = Ok (VBool true).
Proof.
  intros fs.
  destruct (supplied_option_used lenient fs (fresh lenient (VObj fs))
              ltac:(vm_compute; reflexivity))
    as [Hor Hown].
  split.
  - apply (Hor "authUser" AUTH_USER). unfold or_defaults. apply list_elem_of_here.
  - apply (Hown "secureWebSocket" SECURE_WEBSOCKET). unfold own_defaults.
    apply list_elem_of_further, list_elem_of_here.
Defined.

(** ** What the methods and listeners never touch *)

(** X13.  Whatever frame arrives and however the [message] listener ends, it
    never calls into the transport, never arms or cancels a timer and never
    touches a transport client or a connection: all it can change is the
    instance (through [setconfig]), the event log and the console. *)
Theorem message_listener_never_touches_transport m w :
  io_state (final (on_message m w)) = io_state w.
Proof. apply (ends_on_message (unchanged io_state)); unchanged_side. Qed.

(** At a frame on which the listener throws after it has patched the
    client. *)
Lemma message_listener_never_touches_transport_witness :
  (∃ w', on_message (Utf8 (Some (setconfig_with "emit" (VNum 1)))) client_A
         = Throw TypeError w')
  ∧ io_state (final (on_message (Utf8 (Some (setconfig_with "emit" (VNum 1)))) client_A))
    = io_state client_A.
Proof.
  split; [eexists; vm_compute; reflexivity|].
  apply (message_listener_never_touches_transport
           (Utf8 (Some (setconfig_with "emit" (VNum 1)))) client_A).
Defined.

(** X14.  The constructor does no input or output: whether it returns or
    throws, no transport client exists afterwards, nothing was sent, no
    timer is pending and nothing was emitted. *)
Theorem constructor_is_silent ev options :
  let w := final (new_IoTransit ev options) in
  clients w = [] ∧ conns w = [] ∧ wire w = [] ∧ timers w = [] ∧ emitted w = [].
Proof.
  assert (K : ends (unchanged (λ w, (io_state w, emitted w))) (constructor options))
    by (apply ends_constructor; unchanged_side).
  specialize (K (blank ev)). unfold unchanged, io_state in K.
  cbn [blank clients conns wire timers now emitted] in K.
  intros w. subst w. unfold new_IoTransit.
  injection K as K1 K2 K3 K4 _ K5. auto.
Qed.

(** At an argument on which the constructor throws. *)
Lemma constructor_is_silent_witness :
  (∃ e w, new_IoTransit lenient (VNum 7) = Throw e w)
  ∧ wire (final (new_IoTransit lenient (VNum 7))) = []
  ∧ timers (final (new_IoTransit lenient (VNum 7))) = [].
Proof.
  split; [eexists _, _; vm_compute; reflexivity|].
  destruct (constructor_is_silent lenient (VNum 7)) as (_ & _ & Hw & Ht & _).
  split; [exact Hw | exact Ht].
Defined.

Lemma attempts_sent op l :
  match op with
  | WsConnect _ _ _ _ => True
  | _ => attempts (l ++ [op]) = attempts l
  end.
Proof.
  destruct op; [exact I| | |]; unfold attempts;
    rewrite List.filter_app, length_app; cbn; lia.
Qed.

Lemma table_stray_instance w w' :
  instance_state w' = instance_state w → table_stray w' = table_stray w.
Proof.
  intros H. unfold table_stray. rewrite (slot_of_instance _ _ _ H).
  injection H as Ho Hp. unfold method_intact. by rewrite Ho, Hp.
Qed.

(** X15.  [sendCP] never arms or cancels a timer, never makes a connection
    attempt and never touches a transport client, a connection or the
    prototype of the instance, however it ends; and unless [_events] holds a
    stray value, it changes no field of the client either. *)
Theorem sendCP_leaves_the_instance sendMsg w :
  let w' := final (sendCP sendMsg w) in
  timers w' = timers w ∧ clients w' = clients w ∧ conns w' = conns w
  ∧ attempts (wire w') = attempts (wire w)
  ∧ prototype w' = prototype w
  ∧ (table_stray w = false → own w' = own w).
Proof.
  intros w'.
  assert (K : unchanged (λ w, (timers w, clients w, conns w, attempts (wire w), prototype w))
                w w').
  { apply (ends_sendCP (unchanged (λ w, (timers w, clients w, conns w,
                                        attempts (wire w), prototype w))));
      try unchanged_side.
    intros op w0. unfold unchanged. cbn [timers clients conns wire prototype set_wire].
    pose proof (attempts_sent op (wire w0)) as H. destruct op; [exact I| | |];
      by rewrite H. }
  unfold unchanged in K. injection K as -> -> -> -> ->.
  repeat (split; [reflexivity|]).
  set (R := λ a b : world, table_stray a = false → instance_state b = instance_state a).
  assert (KR : R w w').
  { apply (ends_sendCP R).
    - intros a _. reflexivity.
    - intros a b c Hab Hbc Ha. rewrite (Hbc ltac:(by rewrite (table_stray_instance _ _ (Hab Ha)))).
      exact (Hab Ha).
    - intros name arg a Ha. unfold table_stray in Ha. unfold emit.
      destruct (method_intact a "emit"); [|reflexivity]. cbn [andb negb] in Ha |- *.
      destruct (slot_of a "_events") as [[| |b|n|s|l|fs]|id|v c|]; try discriminate.
      + destruct (strict_eq name (VStr "error")); reflexivity.
      + reflexivity.
      + destruct (_ && _); [reflexivity|].
        destruct (to_string _ name); reflexivity.
    - intros [] a; first [exact I | intros _; reflexivity]. }
  intros H. exact (f_equal fst (KR H)).
Qed.

Lemma sendCP_leaves_the_instance_witness :
  table_stray client_A = false
  ∧ own (final (sendCP VUndef client_A)) = own client_A.
Proof.
  assert (H : table_stray client_A = false) by (vm_compute; reflexivity).
  split; [exact H|].
  exact (proj2 (proj2 (proj2 (proj2 (proj2 (sendCP_leaves_the_instance VUndef client_A))))) H).
Defined.

(** *** One reaction *)

(** One reaction relates its end to its start by [R], for the inputs in
    [P], when the methods and listeners those inputs run do and when the
    work of the library around them (making a connection, clearing its flag,
    removing a timer, the clock) does. *)
Lemma step_ends (R : world → world → Prop) (P : input → Prop) :
  (∀ w, R w w) →
  (∀ a b c, R a b → R b c → R a c) →
  (∀ g w, R w (set_conns g w)) →
  (∀ t w, R w (set_now t w)) →
  (P CallConnect → ends R connect) →
  (P CallDisconnect → ends R disconnect) →
  (∀ sendMsg, ends R (sendCP sendMsg)) →
  (∀ c prefix err, P (ConnectFailed c err) → ends R (on_connectFailed prefix err)) →
  (∀ prefix k, ends R (on_connect prefix k)) →
  (∀ k err, ends R (on_error k err)) →
  (∀ k prefix, P (Closed k) → ends R (on_close prefix)) →
  (∀ m, ends R (on_message m)) →
  (∀ n prefix, P (TimerFires n) →
     (∀ w, R w (set_timers (delete n) w)) ∧ ends R (cp_connect prefix)) →
  ∀ i w o, P i → step i w = Some o → R w (final o).
Proof.
  intros Rrefl Rtrans Rconns Rnow Hconnect Hdisconnect HsendCP Hfailed Hopen Herror
    Hclose Hmessage Htimer i w o Pi Hstep.
  destruct i as [| |sendMsg|c err|c|k err|k|k m|n|dt]; unfold step in Hstep.
  - injection Hstep as <-. apply (ends_call R Rrefl), Hconnect, Pi.
  - injection Hstep as <-. apply (ends_call R Rrefl), Hdisconnect, Pi.
  - injection Hstep as <-. apply (ends_call R Rrefl), HsendCP.
  - destruct (clients w !! c) as [cl|]; [|discriminate]. cbn [mbind option_bind] in Hstep.
    injection Hstep as <-.
    destruct (listening cl); [|apply Rrefl].
    apply (Hfailed c (cl_prefix cl) err Pi).
  - destruct (clients w !! c) as [cl|]; [|discriminate]. cbn [mbind option_bind] in Hstep.
    destruct (listening cl); injection Hstep as <-; [|apply Rrefl].
    eapply Rtrans; [apply Rconns|]. apply Hopen.
  - destruct (conns w !! k) as [cn|]; [|discriminate]. cbn [mbind option_bind] in Hstep.
    injection Hstep as <-.
    destruct (watched cn); [|apply Rrefl]. apply Herror.
  - destruct (conns w !! k) as [cn|]; [|discriminate]. cbn [mbind option_bind] in Hstep.
    destruct (closed cn); [discriminate|].
    injection Hstep as <-.
    destruct (watched cn); [|apply Rconns].
    eapply Rtrans; [apply Rconns|]. apply (Hclose k (co_prefix cn) Pi).
  - destruct (conns w !! k) as [cn|]; [|discriminate]. cbn [mbind option_bind] in Hstep.
    injection Hstep as <-.
    destruct (routed cn); [|apply Rrefl]. apply Hmessage.
  - destruct (timers w !! n) as [tm|]; [|discriminate]. cbn [mbind option_bind] in Hstep.
    destruct (ripe (now w) tm); [|discriminate]. injection Hstep as <-.
    destruct (Htimer n (tm_prefix tm) Pi) as [Rtimers Hcp].
    eapply Rtrans; [apply Rtimers|]. apply Hcp.
  - destruct (0 <=? dt)%Z; [|discriminate]. injection Hstep as <-. apply Rnow.
Qed.

Ltac kept_side :=
  first [ solve [apply timers_kept_refl]
        | solve [apply timers_kept_trans]
        | solve [intros; apply timers_kept_armed]
        | solve [intros; apply timers_kept_same; reflexivity]
        | solve [intros ? ? ?; apply timers_kept_same;
                 apply (unchanged_set timers); intros; reflexivity]
        | solve [intros ? ? ?; apply timers_kept_same;
                 apply (unchanged_emit timers); intros; reflexivity]
        | solve [intros ? ?; apply timers_kept_same;
                 apply (unchanged_store timers); intros; reflexivity]
        | solve [intros []; intros; first [exact I | apply timers_kept_same; reflexivity]] ].

(** X16.  Connection attempts have two sources only, and timers are armed
    and removed by few.  Whatever the state and however the reaction ends:
    an input other than a [connect()] call and a timer running leaves the
    number of connection attempts as it was; an input other than a failed
    open, a close, a [disconnect()] call (whose [drop] makes the connection
    report [close]) and a timer running leaves the pending timers as they
    were; and no input but a timer running removes a pending timer.  So
    frames, transport errors, [sendCP] and the opening of a connection
    neither connect nor arm a timer, and nothing cancels one. *)
Theorem attempts_and_timers_by_source i w o :
  step i w = Some o →
  match i with
  | CallConnect | TimerFires _ => True
  | _ => attempts (wire (final o)) = attempts (wire w)
  end
  ∧ match i with
    | ConnectFailed _ _ | Closed _ | CallDisconnect | TimerFires _ => True
    | _ => timers (final o) = timers w
    end
  ∧ match i with
    | TimerFires _ => True
    | _ => timers_kept w (final o)
    end.
Proof.
  intros Hstep. split; [|split].
  - set (R := unchanged (λ w, attempts (wire w))).
    set (P := λ i, match i with CallConnect | TimerFires _ => False | _ => True end).
    assert (S : ∀ op w0, match op with
                         | WsConnect _ _ _ _ => True
                         | _ => R w0 (set_wire (λ l, (l ++ [op])%list) w0)
                         end).
    { intros op w0. unfold R, unchanged. cbn [wire set_wire]. apply attempts_sent. }
    assert (K : P i → R w (final o)).
    { intros Pi.
      refine (step_ends R P _ _ _ _ _ _ _ _ _ _ _ _ _ i w o Pi Hstep).
      - unchanged_side.
      - unchanged_side.
      - unchanged_side.
      - unchanged_side.
      - intros [].
      - intros _. apply ends_disconnect; first [exact S | unchanged_side].
      - intros sendMsg. apply ends_sendCP; first [exact S | unchanged_side].
      - intros c prefix err _. apply ends_report; unchanged_side.
      - intros prefix k. apply ends_on_connect; first [exact S | unchanged_side].
      - intros k err. apply ends_on_error; unchanged_side.
      - intros k prefix _. apply ends_report; unchanged_side.
      - intros m. apply ends_on_message; unchanged_side.
      - intros n prefix []. }
    destruct i; try exact I; apply K; exact I.
  - set (R := unchanged timers).
    set (P := λ i, match i with
                   | ConnectFailed _ _ | Closed _ | CallDisconnect | TimerFires _ => False
                   | _ => True
                   end).
    assert (S : ∀ op w0, match op with
                         | WsConnect _ _ _ _ => True
                         | _ => R w0 (set_wire (λ l, (l ++ [op])%list) w0)
                         end).
    { intros [] w0; first [exact I | reflexivity]. }
    assert (K : P i → R w (final o)).
    { intros Pi.
      refine (step_ends R P _ _ _ _ _ _ _ _ _ _ _ _ _ i w o Pi Hstep).
      - unchanged_side.
      - unchanged_side.
      - unchanged_side.
      - unchanged_side.
      - intros _. apply ends_connect; unchanged_side.
      - intros [].
      - intros sendMsg. apply ends_sendCP; first [exact S | unchanged_side].
      - intros c prefix err [].
      - intros prefix k. apply ends_on_connect; first [exact S | unchanged_side].
      - intros k err. apply ends_on_error; unchanged_side.
      - intros k prefix [].
      - intros m. apply ends_on_message; unchanged_side.
      - intros n prefix []. }
    destruct i; try exact I; apply K; exact I.
  - set (P := λ i, match i with TimerFires _ => False | _ => True end).
    assert (K : P i → timers_kept w (final o)).
    { intros Pi.
      refine (step_ends timers_kept P _ _ _ _ _ _ _ _ _ _ _ _ _ i w o Pi Hstep).
      - kept_side.
      - kept_side.
      - kept_side.
      - kept_side.
      - intros _. apply ends_connect; kept_side.
      - intros _. apply ends_disconnect; kept_side.
      - intros sendMsg. apply ends_sendCP; kept_side.
      - intros c prefix err _. apply ends_report; kept_side.
      - intros prefix k. apply ends_on_connect; kept_side.
      - intros k err. apply ends_on_error; kept_side.
      - intros k prefix _. apply ends_report; kept_side.
      - intros m. apply ends_on_message; kept_side.
      - intros n prefix []. }
    destruct i; try exact I; apply K; exact I.
Qed.

Lemma attempts_and_timers_by_source_witness :
  ∃ w', step CallDisconnect client_A = Some (Ret tt w')
        ∧ attempts (wire w') = attempts (wire client_A)
        ∧ timers_kept client_A w'.
Proof.
  eexists. split; [vm_compute; reflexivity|].
  match goal with
  | |- attempts (wire ?x) = _ ∧ _ =>
      destruct (attempts_and_timers_by_source CallDisconnect client_A (Ret tt x))
        as (Ha & _ & Hk); [vm_compute; reflexivity | split; [exact Ha | exact Hk]]
  end.
Defined.

(** *** A client that cannot emit *)

Lemma muted_refl w : muted w w.
Proof. intros H. auto. Qed.

Lemma muted_trans a b c : muted a b → muted b c → muted a c.
Proof.
  intros Hab Hbc H. destruct (Hab H) as [H1 H2]. destruct (Hbc H1) as [H3 H4].
  split; [exact H3 | congruence].
Qed.

(** Anything that leaves the instance and the event log alone. *)
Lemma muted_apart w w' :
  instance_state w' = instance_state w → emitted w' = emitted w → muted w w'.
Proof.
  intros Hi He H. split.
  - injection Hi as Ho Hp. unfold method_intact in *. by rewrite Ho, Hp.
  - unfold seen_by_host. by rewrite He.
Qed.

Lemma method_hidden_insert w m k s :
  method_intact w m = false → method_intact (set_own (insert k s) w) m = false.
Proof.
  unfold method_intact; cbn [own prototype set_own]. intros H.
  apply andb_false_iff in H as [H|H]; apply andb_false_iff; [left|by right].
  apply bool_decide_eq_false in H. apply bool_decide_eq_false.
  destruct (decide (k = m)) as [->|Hne].
  - by rewrite lookup_insert_eq.
  - by rewrite lookup_insert_ne.
Qed.

Lemma method_hidden_prototype w m p :
  p ≠ ProtoClass → method_intact (set_prototype p w) m = false.
Proof.
  intros Hp. unfold method_intact; cbn [own prototype set_prototype].
  apply andb_false_iff. right. destruct p; [by destruct Hp| | |]; reflexivity.
Qed.

Lemma muted_set k s : ends muted (this_set_slot k s).
Proof.
  assert (W : ∀ w, muted w (set_own (insert k s) w)).
  { intros w H. split; [by apply method_hidden_insert | reflexivity]. }
  assert (P : ∀ p w, p ≠ ProtoClass → muted w (set_prototype p w)).
  { intros p w Hp _. split; [by apply method_hidden_prototype | reflexivity]. }
  intros w. unfold this_set_slot.
  destruct (negb (String.eqb k "__proto__")); [apply W|].
  destruct (own w !! k); [apply W|].
  destruct (match prototype w with
            | ProtoNull => true
            | ProtoData (VObj fs) | ProtoPatched (VObj fs) _ => obj_has fs "__proto__"
            | ProtoData _ | ProtoPatched _ _ | ProtoClass => false
            end); [apply W|].
  destruct s as [[| |b|n|s|l|fs]|id|v c|];
    first [apply muted_refl | apply P; discriminate].
Qed.

Lemma muted_emit name arg : ends muted (emit name arg).
Proof.
  intros w. unfold emit. destruct (method_intact w "emit") eqn:E; [|apply muted_refl].
  intros H. congruence.
Qed.

Lemma muted_store k : ends muted (store_connection k).
Proof.
  intros w. unfold store_connection.
  destruct (own w !! "cp") as [[[| |b|n|s|l|fs]|id|v c|]|];
    try apply muted_refl;
    try (intros H; split; [by apply method_hidden_insert | reflexivity]);
    try (apply muted_apart; reflexivity).
  destruct (prototype w) as [|p|p c|]; try apply muted_refl;
    (destruct (get p "cp") as [[| |b|n|s|l|fs]|e]; try apply muted_refl;
     intros _; (split; [by apply method_hidden_prototype | reflexivity])).
Qed.

Lemma muted_signal k name arg w :
  muted w (set_emitted (λ l, (l ++ [{| on := OnConnection k; name := name;
                                       arg := arg |}])%list) w).
Proof.
  intros H. split; [exact H|].
  unfold seen_by_host; cbn [emitted set_emitted].
  rewrite List.filter_app. cbn. apply app_nil_r.
Qed.

Ltac muted_side :=
  first [ solve [apply muted_refl]
        | solve [apply muted_trans]
        | solve [intros; apply muted_set]
        | solve [intros; apply muted_emit]
        | solve [intros; apply muted_store]
        | solve [intros; apply muted_signal]
        | solve [intros; apply muted_apart; reflexivity]
        | solve [intros []; intros; first [exact I | apply muted_apart; reflexivity]] ].

Lemma muted_step i w o : step i w = Some o → muted w (final o).
Proof.
  intros Hstep.
  refine (step_ends muted (λ _, True) _ _ _ _ _ _ _ _ _ _ _ _ _ i w o I Hstep).
  - muted_side.
  - muted_side.
  - muted_side.
  - muted_side.
  - intros _. apply ends_connect; muted_side.
  - intros _. apply ends_disconnect; muted_side.
  - intros sendMsg. apply ends_sendCP; muted_side.
  - intros c prefix err _. apply ends_report; muted_side.
  - intros prefix k. apply ends_on_connect; muted_side.
  - intros k err. apply ends_on_error; muted_side.
  - intros k prefix _. apply ends_report; muted_side.
  - intros m. apply ends_on_message; muted_side.
  - intros n prefix _. split; [muted_side|]. apply ends_cp_connect; muted_side.
Qed.

(** X18.  Losing [emit] is for good.  Once [this.emit] is no longer the
    method (an own field named [emit] hides it, or the prototype was
    replaced, both of which a [setconfig] can do), no method call, transport
    event, frame or timer brings it back, and the host never observes
    another event on the client: every listener that reports through
    [this.emit] throws instead.  This holds for every reaction from any such
    state, however it ends, and hence along every run. *)
Theorem muted_client_stays_silent :
  (∀ i w o, method_intact w "emit" = false → step i w = Some o →
     method_intact (final o) "emit" = false ∧ seen_by_host (final o) = seen_by_host w)
  ∧ (∀ inputs w o, method_intact w "emit" = false → run inputs w = Some o →
       method_intact (final o) "emit" = false ∧ seen_by_host (final o) = seen_by_host w).
Proof.
  split; [intros i w o Hm Hstep; exact (muted_step _ _ _ Hstep Hm)|].
  intros inputs. induction inputs as [|i rest IH]; intros w o Hm Hrun.
  - injection Hrun as <-. auto.
  - cbn [run] in Hrun. destruct (step i w) as [o1|] eqn:Hstep; [|discriminate].
    destruct o1 as [[] w1|e w1].
    + destruct (muted_step _ _ _ Hstep Hm) as [H1 H2]. cbn [final] in H1, H2.
      destruct (IH w1 o H1 Hrun) as [H3 H4]. split; [exact H3 | congruence].
    + injection Hrun as <-. exact (muted_step _ _ _ Hstep Hm).
Qed.

Lemma muted_client_stays_silent_witness :
  method_intact client_muted "emit" = false
  ∧ ∃ w', run [Elapse 5000; ErrorOn 0 "boom"; Closed 0] client_muted
          = Some (Throw TypeError w')
          ∧ method_intact w' "emit" = false
          ∧ seen_by_host w' = seen_by_host client_muted.
Proof.
  assert (H : method_intact client_muted "emit" = false) by (vm_compute; reflexivity).
  split; [exact H|].
  eexists. split; [vm_compute; reflexivity|].
  match goal with
  | |- method_intact ?x _ = _ ∧ _ =>
      exact (proj2 muted_client_stays_silent [Elapse 5000; ErrorOn 0 "boom"; Closed 0]
               client_muted (Throw TypeError x) H ltac:(vm_compute; reflexivity))
  end.
Defined.

(** ** [sendCP] once [connect()] has run *)

(** X20.  With a transport client in [this.cp] and the emitter intact,
    [sendCP] does one of three things.  If that client has no connection
    yet, or one whose [connected] flag is cleared, nothing is sent and one
    [sendError] is emitted.  If it has a connection whose [connected] flag is
    set, a message other than [undefined] goes to it exactly once and
    nothing is emitted; for [undefined] nothing is sent and [sendCP] throws
    a [TypeError]. *)
Theorem sendCP_after_connect w id sendMsg :
  emit_intact w = true →
  slot_of w "cp" = Client id →
  let open := match connection_of id w with
              | Some k => is_connected k w
              | None => false
              end in
  (open = false →
     sendCP sendMsg w =
     Ret tt (set_emitted (λ l, (l ++ [{| on := OnClient; name := VStr "sendError";
               arg := VStr "control plane not connected" |}])%list) w))
  ∧ (∀ k, connection_of id w = Some k → is_connected k w = true →
       if strict_eq sendMsg VUndef
       then sendCP sendMsg w = Throw TypeError w
       else sendCP sendMsg w = Ret tt (set_wire (λ l, (l ++ [Send k sendMsg])%list) w)).
Proof.
  intros He Hcp open. split.
  - intros Ho. apply (sendCP_not_connected _ id); [exact He | exact Hcp |].
    unfold open in Ho. destruct (connection_of id w); [exact Ho | exact I].
  - intros k Hc Hup. destruct sendMsg as [| |b|n|s|l|fs]; cbn [strict_eq];
      first [ apply (sendCP_undefined _ id k); assumption
            | apply (sendCP_connected _ id k); [assumption..|discriminate] ].
Qed.

Lemma sendCP_after_connect_witness :
  (sendCP (VStr "hello") client_twice =
   Ret tt (set_emitted (λ l, (l ++ [{| on := OnClient; name := VStr "sendError";
             arg := VStr "control plane not connected" |}])%list) client_twice))
  ∧ sendCP VUndef client_A = Throw TypeError client_A.
Proof.
  split.
  - apply (proj1 (sendCP_after_connect client_twice 1 (VStr "hello")
                    ltac:(vm_compute; reflexivity) ltac:(vm_compute; reflexivity))).
    vm_compute; reflexivity.
  - apply (proj2 (sendCP_after_connect client_A 0 VUndef
                    ltac:(vm_compute; reflexivity) ltac:(vm_compute; reflexivity)) 0);
      vm_compute; reflexivity.
Defined.

(** ** Constructing from options already filled in *)

Lemma obj_set_same k v fs : obj_get fs k = Some v → obj_set k v fs = fs.
Proof.
  induction fs as [|[k0 v0] fs IH]; cbn [obj_get obj_set]; [discriminate|].
  destruct (String.eqb k0 k) eqn:E.
  - apply String.eqb_eq in E as ->. by intros [= ->].
  - intros H. by rewrite IH.
Qed.

Lemma obj_get_field fs k : obj_has fs k = true → obj_get fs k = Some (field fs k).
Proof. unfold obj_has, field. destruct (obj_get fs k); [reflexivity|discriminate]. Qed.

Lemma default_or_fixed k d fs :
  obj_has fs k = true → truthy (field fs k) = true → default_or k d fs = fs.
Proof.
  intros Hh Ht. unfold default_or, js_or. rewrite Ht.
  apply obj_set_same, obj_get_field, Hh.
Qed.

Lemma default_own_fixed k d fs : obj_has fs k = true → default_own k d fs = fs.
Proof.
  intros Hh. unfold default_own. rewrite Hh. apply obj_set_same, obj_get_field, Hh.
Qed.

Lemma truthy_js_or x d : truthy d = true → truthy (js_or x d) = true.
Proof. intros H. unfold js_or. destruct (truthy x) eqn:E; [exact E | exact H]. Qed.

Lemma accept_tags_fixed fs : accept_tags (fill_options fs) = fill_options fs.
Proof.
  assert (Hh : obj_has (fill_options fs) "accepts" = obj_has fs "accepts")
    by (read_filled; reflexivity).
  assert (Ha : field (fill_options fs) "accepts" = field fs "accepts")
    by (read_filled; reflexivity).
  assert (Hi : field (fill_options fs) "appletId" = field fs "appletId")
    by (read_filled; reflexivity).
  assert (Ht : field (fill_options fs) "acceptTags" = field (accept_tags fs) "acceptTags")
    by apply fill_options_acceptTags.
  assert (Hp : obj_has (fill_options fs) "acceptTags" = obj_has (accept_tags fs) "acceptTags").
  { unfold fill_options; cbv zeta.
    repeat (first [ rewrite has_default_or | rewrite has_default_own ];
            cbn [String.eqb Ascii.eqb Bool.eqb orb]).
    reflexivity. }
  unfold accept_tags at 1. rewrite Hh, Ha, Hi.
  unfold accept_tags in Ht, Hp.
  destruct (negb (obj_has fs "accepts")).
  - apply obj_set_same. rewrite field_set in Ht. rewrite obj_has_set in Hp.
    cbn [String.eqb Ascii.eqb Bool.eqb orb] in Ht, Hp.
    rewrite (obj_get_field _ _ Hp), Ht. reflexivity.
  - destruct (field fs "accepts") as [| |b|n|s|l|fs']; try reflexivity.
    + apply obj_set_same. rewrite field_set in Ht. rewrite obj_has_set in Hp.
      cbn [String.eqb Ascii.eqb Bool.eqb orb] in Ht, Hp.
      rewrite (obj_get_field _ _ Hp), Ht. reflexivity.
    + apply obj_set_same. rewrite field_set in Ht. rewrite obj_has_set in Hp.
      cbn [String.eqb Ascii.eqb Bool.eqb orb] in Ht, Hp.
      rewrite (obj_get_field _ _ Hp), Ht. reflexivity.
Qed.

Ltac filled_side :=
  first [ solve [read_filled; reflexivity]
        | solve [read_filled; apply truthy_js_or; reflexivity] ].

Lemma fill_options_fixed fs : fill_options (fill_options fs) = fill_options fs.
Proof.
  unfold fill_options at 1. cbv zeta. rewrite accept_tags_fixed.
  rewrite (default_or_fixed "authUser") by filled_side.
  rewrite (default_or_fixed "authPass") by filled_side.
  rewrite (default_or_fixed "controlPlaneUri") by filled_side.
  rewrite (default_or_fixed "controlPlanePort") by filled_side.
  rewrite (default_or_fixed "controlPlaneSubProtocol") by filled_side.
  rewrite (default_or_fixed "controlPlaneOrigin") by filled_side.
  rewrite (default_own_fixed "autoReconnect") by filled_side.
  rewrite (default_or_fixed "reconnectionTimer") by filled_side.
  rewrite (default_own_fixed "secureWebSocket") by filled_side.
  rewrite (default_own_fixed "emitEventsAsCP") by filled_side.
  reflexivity.
Qed.

(** X17.  Filling in the options is idempotent.  The constructor completes the
    caller's object in place; constructing again from the completed object
    (the same object passed to a second [new IoTransit]) is accepted and
    leaves a client equal to the first, with the same options, field by
    field and in the same order. *)
Theorem constructing_again_changes_nothing ev fs w :
  new_IoTransit ev (VObj fs) = Ret tt w →
  data_of w "options" = VObj (fill_options fs)
  ∧ new_IoTransit ev (VObj (fill_options fs)) = Ret tt w.
Proof.
  intros H. pose proof H as H0.
  apply constructed_from_object in H0 as (Hh & Ha & Ho). split; [exact Ho|].
  apply constructor_inv in H as (fs' & w0 & E & ->).
  apply take_options_ok in E as [(s & [=] & _)|([= <-] & _ & _ & ->)].
  assert (Hh' : obj_has (fill_options fs) "hasOwnProperty" = false).
  { transitivity (obj_has fs "hasOwnProperty"); [read_filled; reflexivity | exact Hh]. }
  assert (Ha' : obj_has (fill_options fs) "appletId" = true).
  { transitivity (obj_has fs "appletId"); [read_filled; reflexivity | exact Ha]. }
  rewrite (constructor_ok ev (VObj (fill_options fs)) (fill_options fs)
             (set_own (insert "options" (Data (VObj (fill_options fs)))) (blank ev))).
  - unfold constructed. rewrite fill_options_fixed, !set_own_twice. reflexivity.
  - unfold take_options.
    rewrite (bind_ret _ _ _ _ _ (this_set_plain "options" _ _ eq_refl)).
    unfold has_own. rewrite Hh', Ha'. reflexivity.
Qed.

Lemma constructing_again_changes_nothing_witness :
  let fs := [("appletId", VStr "a"); ("accepts", VStr "b"); ("authPass", VStr EmptyString)] in
  new_IoTransit lenient (VObj (fill_options fs)) = Ret tt (fresh lenient (VObj fs)).
Proof.
  intros fs.
  apply (constructing_again_changes_nothing lenient fs (fresh lenient (VObj fs))).
  vm_compute; reflexivity.
Defined.

(** ** A connection that opens after [this.cp] was patched *)

(** A second [connect()] is pending when a [setconfig] replaces [this.cp]
    by an empty object.  When the second connection opens, line 114 stores
    it on that object: [sendCP] then sends on it and [disconnect()] drops
    it, which arms a reconnect timer; but the object has no [connect], so
    the timer, when it runs, throws a [TypeError]. *)
Lemma open_on_patched_cp :
  ∃ w', run [CallConnect; Frame 0 (Utf8 (Some (setconfig_with "cp" (VObj []))));
             Opened 1; CallSendCP (VStr "hello"); CallDisconnect] client_A
        = Some (Ret tt w')
        ∧ slot_of w' "cp" = Patched (VObj []) 1
        ∧ drop 4 (wire w') = [Send 1 (VStr "hello"); Drop 1]
        ∧ timers w' = [{| armed_at := 0; delay := VNum 5000; tm_prefix := "ws://" |}]
        ∧ ∃ w'', run [Elapse 5000; TimerFires 0] w' = Some (Throw TypeError w'').
Proof.
  eexists. split; [vm_compute; reflexivity|].
  split; [vm_compute; reflexivity|]. split; [vm_compute; reflexivity|].
  split; [vm_compute; reflexivity|]. eexists. vm_compute; reflexivity.
Qed.
